(** * NTC calibration: Steinhart-Hart fitting, inversion and lookup tables

    A shallow embedding of [steinhart_hart_ntc.py] and [ntc_lut.py].

    Numbers.  The program computes with binary64 values (Python [float],
    [numpy.float64]).  They are modelled by [num]: the real numbers extended
    with the IEEE-754 special values (negative zero, the two infinities,
    NaN), with the IEEE rules for the special values and exact arithmetic on
    the finite ones.  Rounding and overflow of binary64 are outside this
    model.  The general statements proved over it are about what the
    program does whatever the finite values are: which exception is raised
    and when, which function is applied to which value and in which order.
    The values of the sample evaluations are those of exact arithmetic.

    Where the value to the last bit decides -- the round trip between ADC
    codes and resistances -- the two conversions are embedded a second time,
    in module [B64], over binary64 numbers with correctly rounded
    operations.

    Exponents are Python [int]s.  numpy converts an [int] operand to a
    machine number and raises [OverflowError] when it does not fit; the
    model has no such exception, and every statement that the program
    returns a value is for exponents that fit a signed 32-bit integer
    ([machine_exponent]).

    Python [float] and [numpy.float64] differ at a division by zero
    (the former raises [ZeroDivisionError], the latter returns an infinity
    or NaN), so a scalar carries the tag of its run-time type.  Arrays are
    lists of numbers: every element of a numpy array is a [numpy.float64].

    Exceptions.  A function that can raise returns a [result]; [assert]
    raises [AssertionError] with its message.

    The solver.  [numpy.linalg.lstsq] is numpy's, not this program's: it is
    a parameter of the fit, and nothing is assumed about it. *)

From Stdlib Require Import String Reals Lra Lia ZArith List Bool Permutation.
From Stdlib Require Import SpecFloat.
Import ListNotations.
Open Scope R_scope.

(** ** Extended real numbers with IEEE-754 special values *)

Inductive num : Type :=
| Fin (x : R)      (* a finite value; [Fin 0] is +0.0 *)
| NegZero          (* -0.0 *)
| PosInf
| NegInf
| NaN.

Definition Reqb (x y : R) : bool := if Req_dec_T x y then true else false.
Definition Rltb (x y : R) : bool := if Rlt_dec x y then true else false.

Definition is_nan (a : num) : bool :=
  match a with NaN => true | _ => false end.

Definition is_inf (a : num) : bool :=
  match a with PosInf | NegInf => true | _ => false end.

Definition is_zero (a : num) : bool :=
  match a with Fin x => Reqb x 0 | NegZero => true | _ => false end.

Definition is_finite (a : num) : bool :=
  match a with Fin _ | NegZero => true | _ => false end.

Definition signbit (a : num) : bool :=
  match a with
  | Fin x => Rltb x 0
  | NegZero | NegInf => true
  | PosInf | NaN => false
  end.

(** The real value of a finite number. *)
Definition fval (a : num) : R :=
  match a with Fin x => x | _ => 0 end.

Definition zero (s : bool) : num := if s then NegZero else Fin 0.
Definition inf (s : bool) : num := if s then NegInf else PosInf.

Definition of_Z (n : Z) : num := Fin (IZR n).

Definition add (a b : num) : num :=
  match a, b with
  | NaN, _ | _, NaN => NaN
  | PosInf, NegInf | NegInf, PosInf => NaN
  | PosInf, _ | _, PosInf => PosInf
  | NegInf, _ | _, NegInf => NegInf
  | NegZero, NegZero => NegZero
  | NegZero, Fin y => Fin y
  | Fin x, NegZero => Fin x
  | Fin x, Fin y => Fin (x + y)
  end.

Definition neg (a : num) : num :=
  match a with
  | Fin x => if Reqb x 0 then NegZero else Fin (- x)
  | NegZero => Fin 0
  | PosInf => NegInf
  | NegInf => PosInf
  | NaN => NaN
  end.

Definition sub (a b : num) : num := add a (neg b).

Definition mul (a b : num) : num :=
  let s := xorb (signbit a) (signbit b) in
  if is_nan a || is_nan b then NaN
  else if is_inf a || is_inf b then
         if is_zero a || is_zero b then NaN else inf s
  else if is_zero a || is_zero b then zero s
  else Fin (fval a * fval b).

Definition div (a b : num) : num :=
  let s := xorb (signbit a) (signbit b) in
  if is_nan a || is_nan b then NaN
  else if is_inf a then (if is_inf b then NaN else inf s)
  else if is_inf b then zero s
  else if is_zero b then (if is_zero a then NaN else inf s)
  else if is_zero a then zero s
  else Fin (fval a / fval b).

Definition abs (a : num) : num :=
  match a with
  | Fin x => Fin (Rabs x)
  | NegZero => Fin 0
  | PosInf | NegInf => PosInf
  | NaN => NaN
  end.

(** [a < b]; false as soon as one side is NaN, and -0.0 is not below +0.0. *)
Definition ltb (a b : num) : bool :=
  match a, b with
  | NaN, _ | _, NaN => false
  | _, NegInf => false
  | NegInf, _ => true
  | PosInf, _ => false
  | _, PosInf => true
  | _, _ => Rltb (fval a) (fval b)
  end.

(** [x ** n] for a natural exponent, and for a Python [int] exponent. *)
Fixpoint pow_nat (a : num) (n : nat) : num :=
  match n with
  | O => Fin 1
  | S k => mul a (pow_nat a k)
  end.

Definition pow (a : num) (p : Z) : num :=
  if (0 <=? p)%Z then pow_nat a (Z.to_nat p)
  else div (Fin 1) (pow_nat a (Z.to_nat (- p))).

(** [numpy.log] *)
Definition log (a : num) : num :=
  match a with
  | Fin x => if Reqb x 0 then NegInf
             else if Rltb x 0 then NaN
             else Fin (ln x)
  | NegZero => NegInf
  | PosInf => PosInf
  | NegInf | NaN => NaN
  end.

(** Rounding to the nearest integer, ties to the even one ([numpy.round]). *)
Definition round_half_even (x : R) : Z :=
  let f := Int_part x in
  let d := frac_part x in
  if Rltb d (1/2) then f
  else if Rltb (1/2) d then (f + 1)%Z
  else if Z.even f then f else (f + 1)%Z.

Definition round (a : num) : num :=
  match a with
  | Fin x =>
      let n := round_half_even x in
      if (n =? 0)%Z && Rltb x 0 then NegZero else Fin (IZR n)
  | _ => a
  end.

(** ** Scalars: a value with the tag of its run-time type *)

Inductive scalar : Type :=
| PyFloat (v : num)     (* Python float *)
| NpFloat (v : num).    (* numpy.float64 *)

Definition val (a : scalar) : num :=
  match a with PyFloat v | NpFloat v => v end.

Definition is_py (a : scalar) : bool :=
  match a with PyFloat _ => true | NpFloat _ => false end.

(** The result of a binary operation is a Python float only when both
    operands are. *)
Definition tagged (a b : scalar) (v : num) : scalar :=
  if is_py a && is_py b then PyFloat v else NpFloat v.

(** A Python [int] operand behaves like a Python float of the same value in
    mixed arithmetic, as long as it can be converted (see
    [machine_exponent]). *)
Definition py_int (n : Z) : scalar := PyFloat (of_Z n).

(** An exponent that every numpy version converts to a machine number: it
    fits a signed 32-bit integer.  For an exponent out of the range of
    binary64 the program raises [OverflowError] where the model below
    computes on. *)
Definition machine_exponent (p : Z) : Prop := (- 2 ^ 31 <= p < 2 ^ 31)%Z.

(** ** Exceptions *)

Inductive exn : Type :=
| AssertionError (msg : string)
| ZeroDivisionError
| LinAlgError.

Inductive result (A : Type) : Type :=
| Ok (a : A)
| Raise (e : exn).

Arguments Ok {A} a.
Arguments Raise {A} e.

Definition rbind {A B} (m : result A) (k : A -> result B) : result B :=
  match m with
  | Ok a => k a
  | Raise e => Raise e
  end.

Declare Scope result_scope.
Delimit Scope result_scope with result.
Notation "x <- m ;; k" := (rbind m (fun x => k))
  (at level 61, m at next level, right associativity) : result_scope.
Notation "m ;; k" := (rbind m (fun _ => k))
  (at level 61, right associativity) : result_scope.
Open Scope result_scope.

Definition assert_ (b : bool) (msg : string) : result unit :=
  if b then Ok tt else Raise (AssertionError msg).

(** ** Scalar arithmetic *)

Definition s_add (a b : scalar) : scalar := tagged a b (add (val a) (val b)).
Definition s_sub (a b : scalar) : scalar := tagged a b (sub (val a) (val b)).
Definition s_mul (a b : scalar) : scalar := tagged a b (mul (val a) (val b)).

Definition s_neg (a : scalar) : scalar :=
  match a with
  | PyFloat v => PyFloat (neg v)
  | NpFloat v => NpFloat (neg v)
  end.

(** [a / b]: Python raises on a zero divisor when both operands are Python
    floats; numpy returns the IEEE quotient (with a warning). *)
Definition s_div (a b : scalar) : result scalar :=
  match a, b with
  | PyFloat x, PyFloat y =>
      if is_zero y then Raise ZeroDivisionError else Ok (PyFloat (div x y))
  | _, _ => Ok (NpFloat (div (val a) (val b)))
  end.

(** [a ** p] with [p] a Python [int]. *)
Definition s_pow (a : scalar) (p : Z) : result scalar :=
  match a with
  | PyFloat x =>
      if is_zero x && (p <? 0)%Z then Raise ZeroDivisionError
      else Ok (PyFloat (pow x p))
  | NpFloat x => Ok (NpFloat (pow x p))
  end.

Definition np_log (a : scalar) : scalar := NpFloat (log (val a)).
Definition np_abs (a : scalar) : scalar := NpFloat (abs (val a)).
(** [a ** p] with [a] a [numpy.float64] and [p] a Python [int] that numpy
    can convert ([machine_exponent]). *)
Definition np_pow (a : scalar) (p : Z) : scalar := NpFloat (pow (val a) p).

Definition s_ltb (a b : scalar) : bool := ltb (val a) (val b).

(** Python's [max(a, b)]: [b] when [b > a], else [a]. *)
Definition pymax (a b : scalar) : scalar := if s_ltb a b then b else a.

(** ** steinhart_hart_ntc.py *)

Definition msg_coeff_terms : string :=
  "Number of coefficients and terms must have the same length".

(** The body of the loop of [sh_p]:
    [inv_temp += c * np.log(resistance) ** p] *)
Definition sh_p_step (resistance : scalar) (inv_temp : scalar)
    (cp : scalar * Z) : scalar :=
  let '(c, p) := cp in
  s_add inv_temp (s_mul c (np_pow (np_log resistance) p)).

(** steinhart-hart polynomial terms *)
Definition sh_p (resistance : scalar) (coefficients : list scalar)
    (terms : list Z) : scalar :=
  fold_left (sh_p_step resistance) (combine coefficients terms)
            (PyFloat (Fin 0)).

(** The body of the loop of [sh_dp_dr]:
    [if p > 0: df_dr += c * p * (np.log(resistance) ** (p - 1)) * (1.0 / resistance)];
    an exception raised in an earlier pass ends the loop. *)
Definition sh_dp_dr_step (resistance : scalar) (acc : result scalar)
    (cp : scalar * Z) : result scalar :=
  let '(c, p) := cp in
  df_dr <- acc ;;
  if (0 <? p)%Z then
    q <- s_div (PyFloat (Fin 1)) resistance ;;
    Ok (s_add df_dr
          (s_mul (s_mul (s_mul c (py_int p))
                        (np_pow (np_log resistance) (p - 1)))
                 q))
  else Ok df_dr.

(** derivative of steinhart-hart polynomial terms *)
Definition sh_dp_dr (resistance : scalar) (coefficients : list scalar)
    (terms : list Z) : result scalar :=
  fold_left (sh_dp_dr_step resistance) (combine coefficients terms)
            (Ok (PyFloat (Fin 0))).

(** general steinhart-hart equation *)
Definition steinhart_hart (resistance : scalar) (coefficients : list scalar)
    (terms : list Z) (temp_in_celsius : bool) : result scalar :=
  assert_ (Nat.eqb (length coefficients) (length terms)) msg_coeff_terms ;;
  temp <- s_div (PyFloat (Fin 1)) (sh_p resistance coefficients terms) ;;
  Ok (if temp_in_celsius then s_sub temp (PyFloat (Fin 273.15)) else temp).

(** first derivative of steinhart-hart equation *)
Definition steinhart_hart_derivative (resistance : scalar)
    (coefficients : list scalar) (terms : list Z) (temp_in_celsius : bool)
  : result scalar :=
  assert_ (Nat.eqb (length coefficients) (length terms)) msg_coeff_terms ;;
  dp_dr <- sh_dp_dr resistance coefficients terms ;;
  let p := sh_p resistance coefficients terms in
  p2 <- s_pow p 2 ;;
  s_div (s_neg dp_dr) p2.

(** One pass through the body of the Newton loop at iterate [r]: the
    residual [f] and the updated [r]. *)
Definition newton_update (temperature : scalar) (coefficients : list scalar)
    (terms : list Z) (temp_in_celsius : bool) (min_resistance : scalar)
    (r : scalar) : result (scalar * scalar) :=
  t <- steinhart_hart r coefficients terms temp_in_celsius ;;
  let f := s_sub t temperature in
  df_dr <- steinhart_hart_derivative r coefficients terms temp_in_celsius ;;
  q <- s_div f df_dr ;;
  Ok (f, pymax (s_sub r q) min_resistance).

(** [for i in range(n): ...; if np.abs(f) < tolerance: break] *)
Fixpoint newton_loop (temperature : scalar) (coefficients : list scalar)
    (terms : list Z) (temp_in_celsius : bool) (min_resistance : scalar)
    (tolerance : scalar) (n : nat) (r : scalar) : result scalar :=
  match n with
  | O => Ok r
  | S k =>
      fr <- newton_update temperature coefficients terms temp_in_celsius
                          min_resistance r ;;
      let '(f, r') := fr in
      if s_ltb (np_abs f) tolerance then Ok r'
      else newton_loop temperature coefficients terms temp_in_celsius
                       min_resistance tolerance k r'
  end.

(** inverse steinhart-hart equation *)
Definition inverse_steinhart_hart (temperature : scalar)
    (coefficients : list scalar) (terms : list Z) (initial_guess : scalar)
    (temp_in_celsius : bool) (min_resistance : scalar) (max_iterations : Z)
    (tolerance : scalar) : result scalar :=
  assert_ (Nat.eqb (length coefficients) (length terms)) msg_coeff_terms ;;
  newton_loop temperature coefficients terms temp_in_celsius min_resistance
              tolerance (Z.to_nat max_iterations) initial_guess.

(** ** Call log

    The orchestrating functions are instrumented with a log of the numeric
    stages they reach, so that "fails before doing X" can be stated: an
    outcome is the log of the stages entered, in order, with the value
    returned or the exception raised. *)

Inductive event : Type :=
| EvDesignMatrix        (* fit: the design matrix is built *)
| EvLstsq               (* fit: numpy.linalg.lstsq is invoked *)
| EvAdcToResistance     (* adc_to_resistance is evaluated *)
| EvInverse             (* inverse_steinhart_hart is evaluated for a row *)
| EvResistanceToAdc.    (* resistance_to_adc is evaluated *)

Definition M (A : Type) : Type := (list event * result A)%type.

Definition ret {A} (a : A) : M A := ([], Ok a).

Definition mbind {A B} (m : M A) (k : A -> M B) : M B :=
  match m with
  | (l, Ok a) => let '(l', r) := k a in (l ++ l', r)
  | (l, Raise e) => (l, Raise e)
  end.

Definition tell (e : event) : M unit := ([e], Ok tt).
Definition lift {A} (r : result A) : M A := ([], r).
Definition massert (b : bool) (msg : string) : M unit := lift (assert_ b msg).

Definition events {A} (m : M A) : list event := fst m.
Definition outcome {A} (m : M A) : result A := snd m.

Declare Scope M_scope.
Delimit Scope M_scope with M.
Notation "x <- m ;; k" := (mbind m (fun x => k))
  (at level 61, m at next level, right associativity) : M_scope.
Notation "m ;; k" := (mbind m (fun _ => k))
  (at level 61, right associativity) : M_scope.

(** [[f(x) for x in l]] where [f] may raise. *)
Fixpoint mapM {A B} (f : A -> M B) (l : list A) : M (list B) :=
  match l with
  | [] => ret []
  | x :: l' => (y <- f x ;; ys <- mapM f l' ;; ret (y :: ys))%M
  end.

(** ** Arrays *)

Definition matrix : Type := list (list num).

(** [row[i] = v] *)
Fixpoint update_at (i : nat) (v : num) (row : list num) : list num :=
  match row, i with
  | [], _ => []
  | _ :: tl, O => v :: tl
  | x :: tl, S j => x :: update_at j v tl
  end.

(** [A[:, i] = col]; the shapes agree where the program does this. *)
Definition set_column (i : nat) (col : list num) (A : matrix) : matrix :=
  map (fun rv => update_at i (snd rv) (fst rv)) (combine A col).

(** [np.zeros((n, m))] *)
Definition zeros (n m : nat) : matrix := repeat (repeat (Fin 0) m) n.

(** ** Fitting (steinhart_hart_ntc.py, continued) *)

Definition msg_pairs_same : string :=
  "Number of temperature and resistance pairs must be the same".
Definition msg_pairs_at_least : string :=
  "Number of temperature and resistance pairs must be at least the number of coefficients + 1 (constant + number of polynomial terms)".
Definition msg_powers_at_least : string :=
  "Number of coefficients must be at least 1".

(** [1.0 / (temperature + 273.15 if temp_in_celsius else temperature)] *)
Definition inverse_temperatures (temperature : list num)
    (temp_in_celsius : bool) : list num :=
  map (fun t => div (Fin 1)
                    (if temp_in_celsius then add t (Fin 273.15) else t))
      temperature.

(** [A = np.zeros((n, len(powers)))], then
    [for i in range(len(powers)): A[:, i] = log_res ** powers[i]] *)
Definition design_matrix (n : nat) (log_res : list num) (powers : list Z)
  : matrix :=
  fold_left
    (fun A i => set_column i (map (fun l => pow l (nth i powers 0%Z)) log_res) A)
    (seq 0 (length powers))
    (zeros n (length powers)).

Section Fit.

(** [numpy.linalg.lstsq(A, b, rcond=None)[0]]: the solver is numpy's, not
    this program's. *)
Variable lstsq : matrix -> list num -> result (list num).

(** solve for N steinhart-hart coefficients given a set of temperature and
    resistance pairs *)
Definition fit_steinhart_hart (temperature resistance : list num)
    (powers : list Z) (temp_in_celsius : bool) : M (list num) :=
  (massert (Nat.eqb (length temperature) (length resistance)) msg_pairs_same ;;
   massert (Nat.leb (length powers) (length temperature)) msg_pairs_at_least ;;
   massert (Nat.leb 1 (length powers)) msg_powers_at_least ;;
   let log_res := map log resistance in
   let inv_temp := inverse_temperatures temperature temp_in_celsius in
   tell EvDesignMatrix ;;
   let A := design_matrix (length temperature) log_res powers in
   tell EvLstsq ;;
   x <- lift (lstsq A inv_temp) ;;
   ret x)%M.

End Fit.

(** ** ntc_lut.py *)

(** [2 ** adc_resolution - 1]: an [int] for a non-negative resolution, and
    a float for a negative one. *)
Definition full_scale (adc_resolution : Z) : num :=
  if (0 <=? adc_resolution)%Z then of_Z (2 ^ adc_resolution - 1)
  else sub (div (Fin 1) (of_Z (2 ^ (- adc_resolution)))) (Fin 1).

(** convert adc values to resistance values *)
Definition adc_to_resistance (adc_values : list num) (adc_resolution : Z)
    (reference_voltage pull_up_resistance : num) : list num :=
  let voltages :=
    map (fun a => div (mul a reference_voltage) (full_scale adc_resolution))
        adc_values in
  let resistances :=
    map (fun v => div (mul v pull_up_resistance) (sub reference_voltage v))
        voltages in
  resistances.

(** convert resistance values to adc values *)
Definition resistance_to_adc (resistances : list num) (adc_resolution : Z)
    (reference_voltage pull_up_resistance : num) : list num :=
  let voltages :=
    map (fun r => div (mul r reference_voltage) (add pull_up_resistance r))
        resistances in
  let adc_values :=
    map (fun v => mul (div v reference_voltage) (full_scale adc_resolution))
        voltages in
  map round adc_values.

Definition msg_lut_coefficients : string :=
  "Number of coefficients must be at least 1".
Definition msg_adc_resolution : string :=
  "ADC resolution must be at least 1".
Definition msg_reference_voltage : string :=
  "Reference voltage must be positive".
Definition msg_pull_up : string :=
  "Pull-up resistance must be positive".
Definition msg_sample_temps : string :=
  "Number of sample temperatures must be at least 1".
Definition msg_measured_temps : string :=
  "Number of measured temperatures must be at least 1".
Definition msg_measured_equal : string :=
  "Number of measured temperatures and ADC values must be equal".
Definition msg_powers : string :=
  "Number of steinhart-hart powers must be at least 1".

(** A lookup table: the rows of [np.array([sample_temps, values]).T]. *)
Definition lut : Type := list (num * num).

(** [[sh.inverse_steinhart_hart(sample_temps[i], coefficients, terms, 1.0,
    True, 1e-6, max_iterations, tolerance) for i in range(len(sample_temps))]] *)
Definition sample_resistances_of (sample_temps : list scalar)
    (coefficients : list scalar) (terms : list Z) (max_iterations : Z)
    (tolerance : scalar) : M (list scalar) :=
  mapM (fun t =>
          (tell EvInverse ;;
           lift (inverse_steinhart_hart t coefficients terms
                   (PyFloat (Fin 1)) true (PyFloat (Fin 1e-6))
                   max_iterations tolerance))%M)
       sample_temps.

(** given a set of steinhart-hart coeffients, return a LUT of ADC value to
    temperature pairs *)
Definition steinhart_hart_to_adc_lut (sample_temps : list scalar)
    (adc_resolution : Z) (reference_voltage pull_up_resistance : num)
    (coefficients : list scalar) (terms : list Z) (temp_in_celsius : bool)
    (max_iterations : Z) (tolerance : scalar) : M lut :=
  (massert (Nat.leb 1 (length coefficients)) msg_lut_coefficients ;;
   massert (1 <=? adc_resolution)%Z msg_adc_resolution ;;
   massert (ltb (Fin 0) reference_voltage) msg_reference_voltage ;;
   massert (ltb (Fin 0) pull_up_resistance) msg_pull_up ;;
   massert (Nat.ltb 0 (length sample_temps)) msg_sample_temps ;;
   sample_resistances <-
     sample_resistances_of sample_temps coefficients terms max_iterations
                           tolerance ;;
   tell EvResistanceToAdc ;;
   let sample_adc_values :=
     resistance_to_adc (map val sample_resistances) adc_resolution
                       reference_voltage pull_up_resistance in
   ret (combine (map val sample_temps) sample_adc_values))%M.

(** given a set of steinhart-hart coeffients, return a LUT of resistance to
    temperature pairs *)
Definition steinhart_hart_to_resistance_lut (sample_temps : list scalar)
    (coefficients : list scalar) (terms : list Z) (temp_in_celsius : bool)
    (max_iterations : Z) (tolerance : scalar) : M lut :=
  (massert (Nat.leb 1 (length coefficients)) msg_lut_coefficients ;;
   massert (Nat.ltb 0 (length sample_temps)) msg_sample_temps ;;
   sample_resistances <-
     sample_resistances_of sample_temps coefficients terms max_iterations
                           tolerance ;;
   ret (combine (map val sample_temps) (map val sample_resistances)))%M.

Section FitLut.

Variable lstsq : matrix -> list num -> result (list num).

(** given raw ADC values and measured temperatures, return a new LUT and the
    fitted steinhart-hart coefficients *)
Definition fit_adc_lut (measured_temps sample_temps adc_values : list num)
    (source_adc_resolution target_adc_resolution : Z)
    (reference_voltage pull_up_resistance : num)
    (steinhart_hart_powers : list Z) (temp_in_celsius : bool)
    (extrapolation_max_iterations : Z) (extrapolation_tolerance : scalar)
  : M (lut * list num) :=
  (massert (Nat.ltb 0 (length measured_temps)) msg_measured_temps ;;
   massert (Nat.eqb (length measured_temps) (length adc_values))
           msg_measured_equal ;;
   massert (Nat.ltb 0 (length steinhart_hart_powers)) msg_powers ;;
   tell EvAdcToResistance ;;
   let resistances :=
     adc_to_resistance adc_values source_adc_resolution reference_voltage
                       pull_up_resistance in
   sh_coeffs <-
     fit_steinhart_hart lstsq measured_temps resistances
                        steinhart_hart_powers temp_in_celsius ;;
   table <-
     steinhart_hart_to_adc_lut (map NpFloat sample_temps)
       target_adc_resolution reference_voltage pull_up_resistance
       (map NpFloat sh_coeffs) steinhart_hart_powers temp_in_celsius
       extrapolation_max_iterations extrapolation_tolerance ;;
   ret (table, sh_coeffs))%M.

(** given raw resistance values and measured temperatures, return a new LUT
    and the fitted steinhart-hart coefficients *)
Definition fit_resistance_lut
    (measured_temps sample_temps resistance_values : list num)
    (steinhart_hart_powers : list Z) (temp_in_celsius : bool)
    (extrapolation_max_iterations : Z) (extrapolation_tolerance : scalar)
  : M (lut * list num) :=
  (massert (Nat.ltb 0 (length measured_temps)) msg_measured_temps ;;
   massert (Nat.eqb (length measured_temps) (length resistance_values))
           msg_measured_equal ;;
   massert (Nat.ltb 0 (length steinhart_hart_powers)) msg_powers ;;
   sh_coeffs <-
     fit_steinhart_hart lstsq measured_temps resistance_values
                        steinhart_hart_powers temp_in_celsius ;;
   table <-
     steinhart_hart_to_resistance_lut (map NpFloat sample_temps)
       (map NpFloat sh_coeffs) steinhart_hart_powers temp_in_celsius
       extrapolation_max_iterations extrapolation_tolerance ;;
   ret (table, sh_coeffs))%M.

End FitLut.

(** ** The iterates of the Newton loop

    [newton_passes] is [newton_loop] with its history kept: one entry per
    pass through the loop body, holding the residual that the pass tested
    and the iterate that it produced. *)

Fixpoint newton_passes (temperature : scalar) (coefficients : list scalar)
    (terms : list Z) (temp_in_celsius : bool) (min_resistance : scalar)
    (tolerance : scalar) (n : nat) (r : scalar)
  : result (list (scalar * scalar)) :=
  match n with
  | O => Ok []
  | S k =>
      fr <- newton_update temperature coefficients terms temp_in_celsius
                          min_resistance r ;;
      if s_ltb (np_abs (fst fr)) tolerance then Ok [fr]
      else
        rest <- newton_passes temperature coefficients terms temp_in_celsius
                              min_resistance tolerance k (snd fr) ;;
        Ok (fr :: rest)
  end.

(** The iterate held after the passes [ps], started from [r0]. *)
Definition last_iterate (ps : list (scalar * scalar)) (r0 : scalar) : scalar :=
  last (map snd ps) r0.

(** The iterate a pass started from: the one before it, or the initial guess. *)
Definition iterate_before (ps : list (scalar * scalar)) (r0 : scalar)
    (n : nat) : scalar :=
  match n with
  | O => r0
  | S k => nth k (map snd ps) r0
  end.

(** A Python float equal to zero: the divisor at which Python raises. *)
Definition py_zero (a : scalar) : bool := is_py a && is_zero (val a).

(** The history of a call of [inverse_steinhart_hart]. *)
Definition inverse_passes (temperature : scalar)
    (coefficients : list scalar) (terms : list Z) (initial_guess : scalar)
    (temp_in_celsius : bool) (min_resistance : scalar) (max_iterations : Z)
    (tolerance : scalar) : result (list (scalar * scalar)) :=
  assert_ (Nat.eqb (length coefficients) (length terms)) msg_coeff_terms ;;
  newton_passes temperature coefficients terms temp_in_celsius min_resistance
                tolerance (Z.to_nat max_iterations) initial_guess.

(** ** The linear system of the fit, in the words of the specification

    Row i of the design matrix holds (ln resistance_i)^p for each exponent
    p, in the order of the exponents; entry i of the right-hand side is
    1/(temperature_i + 273.15) for Celsius input and 1/temperature_i
    otherwise. *)

Definition spec_design_matrix (resistance : list num) (powers : list Z)
  : matrix :=
  map (fun r => map (fun p => pow (log r) p) powers) resistance.

Definition spec_target (temperature : list num) (temp_in_celsius : bool)
  : list num :=
  map (fun t => if temp_in_celsius then div (Fin 1) (add t (Fin 273.15))
                else div (Fin 1) t)
      temperature.

(** ** Least squares over the reals *)

Definition reals (v : list num) : list R := map fval v.

Fixpoint dot (a x : list R) : R :=
  match a, x with
  | u :: a', w :: x' => u * w + dot a' x'
  | _, _ => 0
  end.

Definition sum_list (l : list R) : R := fold_right Rplus 0 l.

(** The sum over the rows of (row . x - b_i)^2. *)
Definition residual_sq (A : list (list R)) (b x : list R) : R :=
  sum_list (map (fun rb => (dot (fst rb) x - snd rb) ^ 2) (combine A b)).

(** A solver for systems with the single column (1, ..., 1): the mean of
    the right-hand side. *)
Definition mean_solver (A : matrix) (b : list num) : result (list num) :=
  Ok [Fin (sum_list (reals b) / INR (length b))].

(** ** Sample inputs

    A two-term model, 1/T = 1/300 + ln r, and the temperature it assigns in
    Celsius to a resistance of one ohm; and a one-term model, whose
    derivative is zero everywhere. *)

Definition demo_coefficients : list scalar :=
  [PyFloat (Fin (1/300)); PyFloat (Fin 1)].
Definition demo_terms : list Z := [0; 1]%Z.
Definition demo_temperature : scalar := PyFloat (Fin 26.85).
Definition default_guess : scalar := PyFloat (Fin 1).
Definition default_floor : scalar := PyFloat (Fin 1e-6).
Definition default_tolerance : scalar := PyFloat (Fin 1e-6).

Definition flat_coefficients : list scalar := [PyFloat (Fin 1)].
Definition flat_terms : list Z := [0]%Z.
Definition flat_temperature : scalar := PyFloat (Fin 25).

(** Two measurements in kelvin, and the constant model. *)
Definition kelvin_temperatures : list num := [Fin 300; Fin 400].
Definition kelvin_resistances : list num := [Fin 1000; Fin 100].
Definition constant_powers : list Z := [0]%Z.


(** ** The Newton iteration, in the words of the specification

    r' = max(r - f(r)/f'(r), minResistance), where
    f(r) = forwardModel(r) - targetTemperature. *)



(** ** The conversions of ntc_lut.py over binary64

    The elements of a numpy array of floats are binary64 numbers, and
    [*], [/], [+], [-] on them are the correctly rounded operations of
    IEEE 754: [SFmul], [SFdiv], [SFadd], [SFsub] at precision 53 and maximal
    exponent 1024. *)

Module B64.

Definition prec : Z := 53.
Definition emax : Z := 1024.

Definition mul : spec_float -> spec_float -> spec_float := SFmul prec emax.
Definition div : spec_float -> spec_float -> spec_float := SFdiv prec emax.
Definition add : spec_float -> spec_float -> spec_float := SFadd prec emax.
Definition sub : spec_float -> spec_float -> spec_float := SFsub prec emax.

(** The binary64 number nearest to an integer: what an [int] becomes when it
    meets a float (exactly the integer up to 2^53). *)
Definition of_Z (n : Z) : spec_float := binary_normalize prec emax n 0 false.

(** [numpy.round]: the nearest integer, ties to the even one; a number
    without fractional bits, an infinity and NaN are returned as they are. *)
Definition round (x : spec_float) : spec_float :=
  match x with
  | S754_finite s m e =>
      if (0 <=? e)%Z then x
      else
        let d := (2 ^ (- e))%Z in
        let q := (Z.pos m / d)%Z in
        let k := match (2 * (Z.pos m mod d) ?= d)%Z with
                 | Lt => q
                 | Gt => (q + 1)%Z
                 | Eq => if Z.even q then q else (q + 1)%Z
                 end in
        if (k =? 0)%Z then S754_zero s
        else of_Z (if s then (- k)%Z else k)
  | _ => x
  end.

(** [2 ** adc_resolution - 1], converted to binary64 where it divides or
    multiplies an array (for a resolution from 0 to 1023; a larger power of
    two cannot be converted). *)
Definition full_scale (adc_resolution : Z) : spec_float :=
  of_Z (2 ^ adc_resolution - 1).

(** convert adc values to resistance values *)
Definition adc_to_resistance (adc_values : list spec_float)
    (adc_resolution : Z) (reference_voltage pull_up_resistance : spec_float)
  : list spec_float :=
  let voltages :=
    map (fun a => div (mul a reference_voltage) (full_scale adc_resolution))
        adc_values in
  let resistances :=
    map (fun v => div (mul v pull_up_resistance) (sub reference_voltage v))
        voltages in
  resistances.

(** convert resistance values to adc values *)
Definition resistance_to_adc (resistances : list spec_float)
    (adc_resolution : Z) (reference_voltage pull_up_resistance : spec_float)
  : list spec_float :=
  let voltages :=
    map (fun r => div (mul r reference_voltage) (add pull_up_resistance r))
        resistances in
  let adc_values :=
    map (fun v => mul (div v reference_voltage) (full_scale adc_resolution))
        voltages in
  map round adc_values.






End B64.

(** * Proofs *)

(** ** Decisions on real numbers *)

Lemma Reqb_true (x y : R) : x = y -> Reqb x y = true.
Proof. intros H; unfold Reqb; destruct (Req_dec_T x y); [reflexivity|contradiction]. Qed.

Lemma Reqb_false (x y : R) : x <> y -> Reqb x y = false.
Proof. intros H; unfold Reqb; destruct (Req_dec_T x y); [contradiction|reflexivity]. Qed.

Lemma Rltb_true (x y : R) : x < y -> Rltb x y = true.
Proof. intros H; unfold Rltb; destruct (Rlt_dec x y); [reflexivity|contradiction]. Qed.

Lemma Rltb_false (x y : R) : ~ x < y -> Rltb x y = false.
Proof. intros H; unfold Rltb; destruct (Rlt_dec x y); [contradiction|reflexivity]. Qed.

Lemma Rltb_irrefl (x : R) : Rltb x x = false.
Proof. apply Rltb_false; lra. Qed.

Lemma ltb_irrefl (a : num) : ltb a a = false.
Proof. destruct a; simpl; auto using Rltb_irrefl. Qed.

(** ** The Newton update *)

Lemma pymax_not_below (a b : scalar) : s_ltb (pymax a b) b = false.
Proof.
  unfold pymax. destruct (s_ltb a b) eqn:E.
  - unfold s_ltb. apply ltb_irrefl.
  - exact E.
Qed.

Lemma last_iterate_cons fr ps r0 :
  last_iterate (fr :: ps) r0 = last_iterate ps (snd fr).
Proof.
  unfold last_iterate. simpl. destruct (map snd ps) as [|x l] eqn:E.
  - reflexivity.
  - clear E. revert x. induction l as [|y l IH]; intros x; [reflexivity|].
    simpl. simpl in IH. apply IH.
Qed.

Section NewtonLoop.

Variables (T : scalar) (cs : list scalar) (ts : list Z) (cel : bool).
Variables (minr tol : scalar).

Lemma newton_update_inv r f r' :
  newton_update T cs ts cel minr r = Ok (f, r') ->
  exists t df q,
    steinhart_hart r cs ts cel = Ok t /\
    f = s_sub t T /\
    steinhart_hart_derivative r cs ts cel = Ok df /\
    s_div f df = Ok q /\
    r' = pymax (s_sub r q) minr.
Proof.
  unfold newton_update. intros H.
  destruct (steinhart_hart r cs ts cel) as [t|e]; simpl in H; [|discriminate].
  destruct (steinhart_hart_derivative r cs ts cel) as [df|e]; simpl in H;
    [|discriminate].
  destruct (s_div (s_sub t T) df) as [q|e] eqn:Eq; simpl in H; [|discriminate].
  inversion H; subst. exists t, df, q. repeat split; auto.
Qed.

(** The two ways in which a history of [S n] allowed passes arises: the
    first pass met the tolerance and is the only one, or it did not and the
    rest is a history of [n] allowed passes from the iterate it produced. *)
Lemma newton_passes_inv n r ps :
  newton_passes T cs ts cel minr tol (S n) r = Ok ps ->
  exists fr,
    newton_update T cs ts cel minr r = Ok fr /\
    ((s_ltb (np_abs (fst fr)) tol = true /\ ps = [fr]) \/
     (s_ltb (np_abs (fst fr)) tol = false /\
      exists rest,
        newton_passes T cs ts cel minr tol n (snd fr) = Ok rest /\
        ps = fr :: rest)).
Proof.
  simpl. intros H.
  destruct (newton_update T cs ts cel minr r) as [fr|e]; simpl in H;
    [|discriminate].
  exists fr. split; [reflexivity|].
  destruct (s_ltb (np_abs (fst fr)) tol).
  - left. inversion H. auto.
  - right. split; [reflexivity|].
    destruct (newton_passes T cs ts cel minr tol n (snd fr)) as [rest|e];
      simpl in H; [|discriminate].
    inversion H. eauto.
Qed.

Lemma newton_passes_length n :
  forall r ps,
    newton_passes T cs ts cel minr tol n r = Ok ps -> (length ps <= n)%nat.
Proof.
  induction n as [|k IH]; intros r ps H.
  - inversion H; simpl; lia.
  - apply newton_passes_inv in H.
    destruct H as (fr & _ & [[_ ->] | [_ (rest & Hrest & ->)]]); simpl.
    + lia.
    + apply IH in Hrest. lia.
Qed.

(** The loop returns the iterate of its last pass. *)
Lemma newton_loop_passes n :
  forall r,
    newton_loop T cs ts cel minr tol n r =
    (ps <- newton_passes T cs ts cel minr tol n r ;; Ok (last_iterate ps r)).
Proof.
  induction n as [|k IH]; intros r; simpl; [reflexivity|].
  destruct (newton_update T cs ts cel minr r) as [[f r']|e]; simpl;
    [|reflexivity].
  destruct (s_ltb (np_abs f) tol); simpl; [reflexivity|].
  rewrite IH.
  destruct (newton_passes T cs ts cel minr tol k r') as [rest|e]; simpl;
    [|reflexivity].
  rewrite last_iterate_cons. reflexivity.
Qed.

(** Every pass is one Newton update from the iterate before it. *)
Lemma newton_passes_step n :
  forall r ps k f r',
    newton_passes T cs ts cel minr tol n r = Ok ps ->
    nth_error ps k = Some (f, r') ->
    newton_update T cs ts cel minr (iterate_before ps r k) = Ok (f, r').
Proof.
  induction n as [|m IH]; intros r ps k f r' H Hk.
  - inversion H; subst. destruct k; discriminate.
  - apply newton_passes_inv in H.
    destruct H as (fr & Hu & [[_ ->] | [_ (rest & Hrest & ->)]]).
    + destruct k as [|k]; simpl in Hk.
      * inversion Hk; subst. exact Hu.
      * destruct k; discriminate.
    + destruct k as [|k]; simpl in Hk.
      * inversion Hk; subst. exact Hu.
      * specialize (IH _ _ _ _ _ Hrest Hk).
        destruct k as [|k]; simpl in *; [exact IH|].
        assert (Hlt : (k < length (map snd rest))%nat).
        { rewrite length_map.
          assert (nth_error rest (S k) <> None) as Hn by (simpl; congruence).
          apply nth_error_Some in Hn. lia. }
        rewrite (nth_indep _ r (snd fr) Hlt). exact IH.
Qed.

(** No pass follows one whose residual met the tolerance. *)
Lemma newton_passes_stop n :
  forall r ps k fr,
    newton_passes T cs ts cel minr tol n r = Ok ps ->
    nth_error ps k = Some fr ->
    s_ltb (np_abs (fst fr)) tol = true ->
    length ps = S k.
Proof.
  induction n as [|m IH]; intros r ps k fr H Hk Hf.
  - inversion H; subst. destruct k; discriminate.
  - apply newton_passes_inv in H.
    destruct H as (fr0 & _ & [[_ ->] | [E0 (rest & Hrest & ->)]]).
    + destruct k as [|k]; [reflexivity|]. destruct k; discriminate.
    + destruct k as [|k]; simpl in Hk.
      * inversion Hk; subst. congruence.
      * simpl. f_equal. eapply IH; eauto.
Qed.

(** Fewer passes than allowed: the last one met the tolerance. *)
Lemma newton_passes_early n :
  forall r ps,
    newton_passes T cs ts cel minr tol n r = Ok ps ->
    (length ps < n)%nat ->
    exists fr, nth_error ps (length ps - 1) = Some fr /\
               s_ltb (np_abs (fst fr)) tol = true.
Proof.
  induction n as [|m IH]; intros r ps H Hlt; [lia|].
  apply newton_passes_inv in H.
  destruct H as (fr0 & _ & [[E0 ->] | [_ (rest & Hrest & ->)]]).
  - exists fr0. simpl. auto.
  - simpl in Hlt.
    destruct (IH _ _ Hrest ltac:(lia)) as [fr [H1 H2]].
    exists fr. split; [|exact H2].
    simpl. rewrite Nat.sub_0_r.
    destruct rest as [|x rest']; [destruct m; simpl in Hrest; discriminate H1|].
    simpl in *. rewrite Nat.sub_0_r in H1. exact H1.
Qed.

End NewtonLoop.

Lemma inverse_steinhart_hart_passes T cs ts init cel minr mi tol :
  inverse_steinhart_hart T cs ts init cel minr mi tol =
  (ps <- inverse_passes T cs ts init cel minr mi tol ;;
   Ok (last_iterate ps init)).
Proof.
  unfold inverse_steinhart_hart, inverse_passes.
  destruct (assert_ (Nat.eqb (length cs) (length ts)) msg_coeff_terms);
    simpl; [|reflexivity].
  apply newton_loop_passes.
Qed.

Lemma inverse_passes_newton T cs ts init cel minr mi tol ps :
  inverse_passes T cs ts init cel minr mi tol = Ok ps ->
  newton_passes T cs ts cel minr tol (Z.to_nat mi) init = Ok ps.
Proof.
  unfold inverse_passes, assert_.
  destruct (Nat.eqb (length cs) (length ts)); simpl; [auto|discriminate].
Qed.




(** C10.  The tolerance is tested against the residual of the iterate the
    pass started from: a pass whose residual meets the tolerance is the
    last one, and the value returned is the iterate that this pass produced
    by one more Newton update; no residual is computed for it. *)
Theorem convergence_test_uses_previous_residual
    T cs ts init cel minr mi tol ps n f r' :
  inverse_passes T cs ts init cel minr mi tol = Ok ps ->
  nth_error ps n = Some (f, r') ->
  s_ltb (np_abs f) tol = true ->
  length ps = S n /\
  newton_update T cs ts cel minr (iterate_before ps init n) = Ok (f, r') /\
  inverse_steinhart_hart T cs ts init cel minr mi tol = Ok r'.
Proof.
  intros Hp Hn Hf.
  pose proof (inverse_passes_newton _ _ _ _ _ _ _ _ _ Hp) as Hp'.
  assert (Hlen : length ps = S n)
    by (eapply newton_passes_stop; eauto).
  split; [exact Hlen|]. split.
  - eapply newton_passes_step; eauto.
  - rewrite inverse_steinhart_hart_passes, Hp. simpl. f_equal.
    unfold last_iterate.
    assert (Hm : nth_error (map snd ps) n = Some r')
      by (rewrite nth_error_map, Hn; reflexivity).
    assert (Hl : length (map snd ps) = S n) by (rewrite length_map; exact Hlen).
    clear - Hm Hl. revert n Hm Hl.
    induction (map snd ps) as [|x l IH]; intros n Hm Hl; [discriminate|].
    destruct n as [|n]; simpl in *.
    + destruct l; [congruence|discriminate].
    + destruct l as [|y l]; [destruct n; discriminate|].
      apply (IH n); auto.
Qed.

(** ** Arithmetic on finite values *)

Lemma Fin_eq (x y : R) : x = y -> Fin x = Fin y.
Proof. intros ->; reflexivity. Qed.

Lemma add_Fin (x y : R) : add (Fin x) (Fin y) = Fin (x + y).
Proof. reflexivity. Qed.

Lemma sub_Fin (x y : R) : sub (Fin x) (Fin y) = Fin (x - y).
Proof.
  unfold sub, neg, Reqb. destruct (Req_dec_T y 0) as [->|Hy]; simpl.
  - apply Fin_eq; lra.
  - apply Fin_eq; lra.
Qed.

Lemma mul_Fin_nz (x y : R) :
  x <> 0 -> y <> 0 -> mul (Fin x) (Fin y) = Fin (x * y).
Proof.
  intros Hx Hy. unfold mul; simpl.
  rewrite (Reqb_false x 0 Hx), (Reqb_false y 0 Hy). reflexivity.
Qed.

Lemma mul_Fin_nonneg (x y : R) :
  0 <= x -> 0 <= y -> mul (Fin x) (Fin y) = Fin (x * y).
Proof.
  intros Hx Hy. unfold mul; simpl.
  rewrite (Rltb_false x 0), (Rltb_false y 0) by lra.
  unfold Reqb. destruct (Req_dec_T x 0) as [->|Hx0]; simpl.
  - apply Fin_eq; lra.
  - destruct (Req_dec_T y 0) as [->|Hy0]; simpl; apply Fin_eq; lra.
Qed.

Lemma div_Fin_nz (x y : R) :
  x <> 0 -> y <> 0 -> div (Fin x) (Fin y) = Fin (x / y).
Proof.
  intros Hx Hy. unfold div; simpl.
  rewrite (Reqb_false x 0 Hx), (Reqb_false y 0 Hy). reflexivity.
Qed.

Lemma log_Fin (x : R) : 0 < x -> log (Fin x) = Fin (ln x).
Proof.
  intros Hx. unfold log.
  rewrite (Reqb_false x 0), (Rltb_false x 0) by lra. reflexivity.
Qed.

Lemma log_one : log (Fin 1) = Fin 0.
Proof. rewrite log_Fin by lra. apply Fin_eq, ln_1. Qed.

Lemma pow_nat_Fin (x : R) (n : nat) : pow_nat (Fin x) n = Fin (x ^ n).
Proof.
  induction n as [|k IH]; [reflexivity|].
  simpl pow_nat. rewrite IH.
  destruct (Req_dec_T x 0) as [->|Hx].
  - rewrite mul_Fin_nonneg; [reflexivity|lra|].
    destruct k; simpl; lra.
  - rewrite mul_Fin_nz; auto. apply pow_nonzero; exact Hx.
Qed.

Lemma pow_Fin (x : R) (p : Z) :
  (0 <= p)%Z -> pow (Fin x) p = Fin (x ^ Z.to_nat p).
Proof.
  intros Hp. unfold pow.
  destruct (Z.leb_spec 0 p); [apply pow_nat_Fin|lia].
Qed.

Lemma pow_zero_exponent (a : num) : pow a 0 = Fin 1.
Proof. reflexivity. Qed.

(** From here on the arithmetic is rewritten with its equations rather than
    unfolded. *)
Arguments add : simpl never.
Arguments sub : simpl never.
Arguments mul : simpl never.
Arguments div : simpl never.
Arguments neg : simpl never.
Arguments abs : simpl never.
Arguments ltb : simpl never.
Arguments log : simpl never.
Arguments pow : simpl never.
Arguments round : simpl never.
Arguments s_add : simpl never.
Arguments s_sub : simpl never.
Arguments s_mul : simpl never.
Arguments s_div : simpl never.
Arguments s_pow : simpl never.
Arguments s_neg : simpl never.
Arguments np_pow : simpl never.
Arguments np_log : simpl never.
Arguments np_abs : simpl never.
Arguments pymax : simpl never.

(** ** [inverse_steinhart_hart] raises nothing on well-formed arguments *)

Lemma is_py_tagged a b v : is_py (tagged a b v) = is_py a && is_py b.
Proof. unfold tagged. destruct (is_py a && is_py b); reflexivity. Qed.

Lemma sh_p_fold_np r l acc :
  is_py acc = false -> is_py (fold_left (sh_p_step r) l acc) = false.
Proof.
  revert acc. induction l as [|[c p] l IH]; intros acc H; simpl; [exact H|].
  apply IH. unfold s_add. rewrite is_py_tagged, H. reflexivity.
Qed.

Lemma s_div_np_r a b :
  is_py b = false -> s_div a b = Ok (NpFloat (div (val a) (val b))).
Proof.
  unfold s_div; destruct a, b; simpl; intros H; try discriminate; reflexivity.
Qed.

Lemma s_div_np_l a b :
  is_py a = false -> s_div a b = Ok (NpFloat (div (val a) (val b))).
Proof.
  unfold s_div; destruct a, b; simpl; intros H; try discriminate; reflexivity.
Qed.

Lemma s_div_not_py_zero a b :
  py_zero b = false -> exists q, s_div a b = Ok q.
Proof.
  unfold py_zero, s_div. destruct a as [x|x], b as [y|y]; simpl; intros H;
    eauto.
  rewrite H. eauto.
Qed.

Lemma sh_dp_dr_fold_ok r l :
  py_zero r = false ->
  forall acc, exists d, fold_left (sh_dp_dr_step r) l (Ok acc) = Ok d.
Proof.
  intros Hr. induction l as [|[c p] l IH]; intros acc; simpl; [eauto|].
  destruct (s_div_not_py_zero (PyFloat (Fin 1)) r Hr) as [q Hq].
  rewrite Hq. destruct (0 <? p)%Z; simpl; apply IH.
Qed.

Lemma sh_dp_dr_ok r cs ts :
  py_zero r = false -> exists d, sh_dp_dr r cs ts = Ok d.
Proof. intros Hr. unfold sh_dp_dr. apply sh_dp_dr_fold_ok; exact Hr. Qed.

Section WellFormed.

(** As many coefficients as terms, and at least one. *)
Variables (cs : list scalar) (ts : list Z).
Hypothesis Hlen : length cs = length ts.
Hypothesis Hne : cs <> [].

(** With a term in it, the polynomial is a numpy value. *)
Lemma sh_p_np r : is_py (sh_p r cs ts) = false.
Proof.
  unfold sh_p.
  destruct cs as [|c cs']; [contradiction|].
  destruct ts as [|p ts']; [discriminate|]. simpl.
  apply sh_p_fold_np. unfold s_add, s_mul, np_pow.
  rewrite !is_py_tagged. simpl. apply andb_false_r.
Qed.

Lemma assert_length_eq :
  assert_ (Nat.eqb (length cs) (length ts)) msg_coeff_terms = Ok tt.
Proof. rewrite Hlen, Nat.eqb_refl. reflexivity. Qed.

Lemma steinhart_hart_ok r cel :
  exists t, steinhart_hart r cs ts cel = Ok t /\ is_py t = false.
Proof.
  unfold steinhart_hart. rewrite assert_length_eq. simpl.
  rewrite s_div_np_r by apply sh_p_np. simpl.
  destruct cel; eexists; split; reflexivity.
Qed.

Lemma steinhart_hart_derivative_ok r cel :
  py_zero r = false ->
  exists d, steinhart_hart_derivative r cs ts cel = Ok d /\ is_py d = false.
Proof.
  intros Hr. unfold steinhart_hart_derivative.
  rewrite assert_length_eq. simpl.
  destruct (sh_dp_dr_ok r cs ts Hr) as [d ->]. simpl.
  pose proof (sh_p_np r) as Hp.
  destruct (sh_p r cs ts) as [v|v]; [discriminate|]. simpl.
  destruct (s_neg d); simpl; eexists; split; reflexivity.
Qed.

Variables (T : scalar) (cel : bool) (minr tol : scalar).
Hypothesis Hfloor : py_zero minr = false.

(** A pass from an iterate that is not the Python float zero raises nothing
    and produces such an iterate. *)
Lemma newton_update_ok r :
  py_zero r = false ->
  exists f r', newton_update T cs ts cel minr r = Ok (f, r') /\
               py_zero r' = false.
Proof.
  intros Hr. unfold newton_update.
  destruct (steinhart_hart_ok r cel) as (t & -> & Ht). simpl.
  destruct (steinhart_hart_derivative_ok r cel Hr) as (d & -> & Hd). simpl.
  rewrite s_div_np_r by exact Hd. simpl.
  eexists; eexists; split; [reflexivity|].
  unfold pymax. destruct (s_ltb _ minr); [exact Hfloor|].
  unfold py_zero, s_sub. rewrite is_py_tagged. simpl.
  rewrite andb_false_r. reflexivity.
Qed.

Lemma newton_passes_ok n :
  forall r, py_zero r = false ->
  exists ps, newton_passes T cs ts cel minr tol n r = Ok ps.
Proof.
  induction n as [|k IH]; intros r Hr; simpl; [eauto|].
  destruct (newton_update_ok r Hr) as (f & r' & -> & Hr'). simpl.
  destruct (s_ltb (np_abs f) tol); [eauto|].
  destruct (IH r' Hr') as [rest ->]. simpl. eauto.
Qed.

End WellFormed.

(** C3 (amended).  With coefficient and term lists of different lengths
    [inverse_steinhart_hart] raises [AssertionError].  With as many
    coefficients as terms, at least one of them, exponents that fit a
    signed 32-bit integer, and an initial guess and a floor that are not
    the Python float zero, it makes at most [max_iterations] passes through
    its loop, makes no pass after one whose residual met the tolerance,
    stops before [max_iterations] only after such a pass, and returns the
    last iterate; it raises nothing, whether or not the tolerance was ever
    met. *)
Theorem inverse_terminates_and_returns_last_iterate
    T cs ts init cel minr mi tol :
  (length cs <> length ts ->
   inverse_steinhart_hart T cs ts init cel minr mi tol
   = Raise (AssertionError msg_coeff_terms)) /\
  ((0 <= mi)%Z ->
   length cs = length ts -> cs <> [] ->
   Forall machine_exponent ts ->
   py_zero init = false -> py_zero minr = false ->
   exists ps,
     inverse_passes T cs ts init cel minr mi tol = Ok ps /\
     (Z.of_nat (length ps) <= mi)%Z /\
     inverse_steinhart_hart T cs ts init cel minr mi tol
       = Ok (last_iterate ps init) /\
     (forall n fr, nth_error ps n = Some fr ->
                   s_ltb (np_abs (fst fr)) tol = true -> length ps = S n) /\
     ((Z.of_nat (length ps) < mi)%Z ->
      exists fr, nth_error ps (length ps - 1) = Some fr /\
                 s_ltb (np_abs (fst fr)) tol = true)).
Proof.
  split.
  - intros Hl. unfold inverse_steinhart_hart, assert_.
    rewrite (proj2 (Nat.eqb_neq _ _) Hl). reflexivity.
  - intros Hmi Hl Hne _ Hi Hm.
    destruct (newton_passes_ok cs ts Hl Hne T cel minr tol Hm (Z.to_nat mi)
                init Hi) as [ps Hps].
    assert (Hip : inverse_passes T cs ts init cel minr mi tol = Ok ps).
    { unfold inverse_passes. rewrite (assert_length_eq cs ts Hl). exact Hps. }
    exists ps. split; [exact Hip|].
    pose proof (newton_passes_length _ _ _ _ _ _ _ _ _ Hps) as Hlen.
    split; [lia|]. split.
    + rewrite inverse_steinhart_hart_passes, Hip. reflexivity.
    + split.
      * intros n fr Hn Hf. eapply newton_passes_stop; eauto.
      * intros Hlt. eapply newton_passes_early; eauto. lia.
Qed.

(** C3 (as stated) fails where the lists differ in length: the call raises
    [AssertionError]. *)
Lemma inverse_raises_on_length_mismatch :
  inverse_steinhart_hart (PyFloat (Fin 25)) [PyFloat (Fin 1)] [0; 1]%Z
    (PyFloat (Fin 1)) true (PyFloat (Fin 1e-6)) 500 (PyFloat (Fin 1e-6))
  = Raise (AssertionError msg_coeff_terms).
Proof. reflexivity. Qed.

(** ** Evaluation on the sample inputs *)

Ltac scalar_eval :=
  unfold s_add, s_sub, s_mul, s_neg, np_pow, np_log, np_abs, py_int, of_Z,
    tagged;
  cbv iota beta; cbn [val is_py andb].

Lemma div_zero_by_negative (y : R) : y < 0 -> div (Fin 0) (Fin y) = NegZero.
Proof.
  intros Hy. unfold div; simpl.
  rewrite (Reqb_false y 0) by lra. rewrite (Reqb_true 0 0) by reflexivity.
  rewrite (Rltb_false 0 0), (Rltb_true y 0) by lra. reflexivity.
Qed.

Lemma div_negative_by_negzero (x : R) : x < 0 -> div (Fin x) NegZero = PosInf.
Proof.
  intros Hx. unfold div; simpl.
  rewrite (Reqb_false x 0) by lra. rewrite (Rltb_true x 0) by lra.
  reflexivity.
Qed.

Lemma div_negzero_by_positive (y : R) : 0 < y -> div NegZero (Fin y) = NegZero.
Proof.
  intros Hy. unfold div; simpl.
  rewrite (Reqb_false y 0) by lra. rewrite (Rltb_false y 0) by lra.
  reflexivity.
Qed.

Lemma demo_sh_p :
  sh_p default_guess demo_coefficients demo_terms = NpFloat (Fin (1/300)).
Proof.
  unfold sh_p, default_guess, demo_coefficients, demo_terms.
  cbn [combine fold_left sh_p_step]. scalar_eval.
  rewrite log_one, pow_zero_exponent.
  rewrite (pow_Fin 0 1) by lia.
  rewrite !mul_Fin_nonneg, !add_Fin; try (simpl; lra).
  f_equal. apply Fin_eq. simpl. lra.
Qed.

Lemma demo_steinhart_hart_celsius :
  steinhart_hart default_guess demo_coefficients demo_terms true
  = Ok (NpFloat (Fin 26.85)).
Proof.
  unfold steinhart_hart. rewrite demo_sh_p.
  cbn [length demo_coefficients demo_terms Nat.eqb assert_ rbind].
  unfold s_div. cbn [val rbind].
  rewrite div_Fin_nz by lra. scalar_eval. rewrite sub_Fin.
  do 2 f_equal. apply Fin_eq. lra.
Qed.

Lemma demo_steinhart_hart_kelvin (r : scalar) :
  val r = Fin 1 ->
  steinhart_hart r demo_coefficients demo_terms false = Ok (NpFloat (Fin 300)).
Proof.
  intros Hr.
  assert (Hp : sh_p r demo_coefficients demo_terms
               = sh_p default_guess demo_coefficients demo_terms).
  { unfold sh_p, demo_coefficients, demo_terms.
    cbn [combine fold_left sh_p_step]. unfold np_log. rewrite Hr.
    reflexivity. }
  unfold steinhart_hart. rewrite Hp, demo_sh_p.
  cbn [length demo_coefficients demo_terms Nat.eqb assert_ rbind].
  unfold s_div. cbn [val rbind].
  rewrite div_Fin_nz by lra.
  do 2 f_equal. apply Fin_eq. lra.
Qed.

Lemma demo_sh_dp_dr :
  sh_dp_dr default_guess demo_coefficients demo_terms = Ok (NpFloat (Fin 1)).
Proof.
  unfold sh_dp_dr, default_guess, demo_coefficients, demo_terms.
  cbn [combine fold_left sh_dp_dr_step rbind Z.ltb Z.compare].
  unfold s_div. cbn [is_zero]. rewrite (Reqb_false 1 0) by lra. cbn [rbind].
  scalar_eval. cbn [Z.sub Z.add Z.opp Z.pos_sub].
  rewrite log_one, pow_zero_exponent.
  rewrite div_Fin_nz by lra.
  rewrite !mul_Fin_nz, !add_Fin; try lra.
  do 2 f_equal. apply Fin_eq. lra.
Qed.

Lemma demo_derivative :
  steinhart_hart_derivative default_guess demo_coefficients demo_terms true
  = Ok (NpFloat (Fin (-90000))).
Proof.
  unfold steinhart_hart_derivative. rewrite demo_sh_dp_dr, demo_sh_p.
  cbn [length demo_coefficients demo_terms Nat.eqb assert_ rbind].
  unfold s_pow. rewrite (pow_Fin _ 2) by lia. cbn [rbind].
  unfold s_div, s_neg. cbv iota beta. cbn [val].
  unfold neg. rewrite (Reqb_false 1 0) by lra.
  rewrite div_Fin_nz; try (simpl; lra).
  do 2 f_equal. apply Fin_eq. simpl. field.
Qed.

Lemma demo_update :
  newton_update demo_temperature demo_coefficients demo_terms true
                default_floor default_guess
  = Ok (NpFloat (Fin 0), NpFloat (Fin 1)).
Proof.
  unfold newton_update.
  rewrite demo_steinhart_hart_celsius, demo_derivative. cbn [rbind].
  unfold demo_temperature, default_floor, default_guess. scalar_eval.
  rewrite sub_Fin. replace (26.85 - 26.85) with 0 by lra.
  unfold s_div. cbn [val rbind]. scalar_eval.
  rewrite div_zero_by_negative by lra.
  unfold sub, neg. rewrite add_Fin.
  unfold pymax, s_ltb. cbn [val]. unfold ltb. cbn [fval].
  rewrite Rltb_false by lra.
  do 3 f_equal. apply Fin_eq. lra.
Qed.

Lemma demo_residual_within_tolerance :
  s_ltb (np_abs (NpFloat (Fin 0))) default_tolerance = true.
Proof.
  unfold s_ltb, np_abs, default_tolerance, abs, ltb. cbn [val fval].
  rewrite Rabs_R0. apply Rltb_true. lra.
Qed.

Lemma demo_passes (mi : Z) :
  (1 <= mi)%Z ->
  inverse_passes demo_temperature demo_coefficients demo_terms default_guess
    true default_floor mi default_tolerance
  = Ok [(NpFloat (Fin 0), NpFloat (Fin 1))].
Proof.
  intros Hmi. unfold inverse_passes.
  cbn [length demo_coefficients demo_terms Nat.eqb assert_ rbind].
  destruct (Z.to_nat mi) as [|k] eqn:E; [lia|].
  cbn [newton_passes]. rewrite demo_update. cbn [rbind fst].
  rewrite demo_residual_within_tolerance. reflexivity.
Qed.

Lemma demo_inverse (mi : Z) :
  (1 <= mi)%Z ->
  inverse_steinhart_hart demo_temperature demo_coefficients demo_terms
    default_guess true default_floor mi default_tolerance
  = Ok (NpFloat (Fin 1)).
Proof.
  intros Hmi. rewrite inverse_steinhart_hart_passes, demo_passes by exact Hmi.
  reflexivity.
Qed.

Lemma flat_sh_p (r : scalar) :
  sh_p r flat_coefficients flat_terms = NpFloat (Fin 1).
Proof.
  unfold sh_p, flat_coefficients, flat_terms.
  cbn [combine fold_left sh_p_step]. scalar_eval.
  rewrite pow_zero_exponent, mul_Fin_nz, add_Fin by lra.
  f_equal. apply Fin_eq. lra.
Qed.

Lemma flat_steinhart_hart (r : scalar) :
  steinhart_hart r flat_coefficients flat_terms true
  = Ok (NpFloat (Fin (-272.15))).
Proof.
  unfold steinhart_hart. rewrite flat_sh_p.
  cbn [length flat_coefficients flat_terms Nat.eqb assert_ rbind].
  unfold s_div. cbn [val rbind].
  rewrite div_Fin_nz by lra. scalar_eval. rewrite sub_Fin.
  do 2 f_equal. apply Fin_eq. lra.
Qed.

Lemma flat_derivative (r : scalar) :
  steinhart_hart_derivative r flat_coefficients flat_terms true
  = Ok (NpFloat NegZero).
Proof.
  unfold steinhart_hart_derivative. rewrite flat_sh_p.
  unfold sh_dp_dr, flat_coefficients, flat_terms.
  cbn [length Nat.eqb assert_ rbind combine fold_left sh_dp_dr_step
       Z.ltb Z.compare].
  unfold s_pow. rewrite (pow_Fin _ 2) by lia. cbn [rbind].
  unfold s_div, s_neg. cbv iota beta. cbn [val].
  unfold neg. rewrite (Reqb_true 0 0) by reflexivity.
  rewrite div_negzero_by_positive; [reflexivity|simpl; lra].
Qed.

Lemma flat_update (r : scalar) (x : R) :
  val r = Fin x ->
  newton_update flat_temperature flat_coefficients flat_terms true
                default_floor r
  = Ok (NpFloat (Fin (-297.15)), default_floor).
Proof.
  intros Hr. unfold newton_update.
  rewrite flat_steinhart_hart, flat_derivative. cbn [rbind].
  unfold flat_temperature, default_floor. scalar_eval.
  rewrite sub_Fin. replace (-272.15 - 25) with (-297.15) by lra.
  unfold s_div. cbn [val rbind].
  rewrite div_negative_by_negzero by lra.
  scalar_eval. rewrite Hr.
  destruct r; cbn [is_py andb]; reflexivity.
Qed.

Lemma flat_residual_outside_tolerance :
  s_ltb (np_abs (NpFloat (Fin (-297.15)))) default_tolerance = false.
Proof.
  unfold s_ltb, np_abs, default_tolerance, abs, ltb. cbn [val fval].
  apply Rltb_false. rewrite Rabs_left by lra. lra.
Qed.

Lemma flat_loop_at_floor (n : nat) :
  newton_loop flat_temperature flat_coefficients flat_terms true
              default_floor default_tolerance n default_floor
  = Ok default_floor.
Proof.
  induction n as [|k IH]; [reflexivity|].
  cbn [newton_loop].
  rewrite (flat_update default_floor 1e-6) by reflexivity. cbn [rbind].
  rewrite flat_residual_outside_tolerance. exact IH.
Qed.

Lemma flat_inverse (mi : Z) :
  (1 <= mi)%Z ->
  inverse_steinhart_hart flat_temperature flat_coefficients flat_terms
    default_guess true default_floor mi default_tolerance
  = Ok default_floor.
Proof.
  intros Hmi. unfold inverse_steinhart_hart.
  cbn [length flat_coefficients flat_terms Nat.eqb assert_ rbind].
  destruct (Z.to_nat mi) as [|k] eqn:E; [lia|].
  cbn [newton_loop].
  rewrite (flat_update default_guess 1) by reflexivity. cbn [rbind].
  rewrite flat_residual_outside_tolerance. apply flat_loop_at_floor.
Qed.

(** ** Division by a zero derivative *)

Lemma div_by_zero_not_finite (a b : num) :
  is_zero b = true -> is_finite (div a b) = false.
Proof.
  intros Hb. unfold div.
  destruct b as [y| | | |]; simpl in Hb; try discriminate;
    destruct a as [x| | | |]; simpl; try reflexivity;
    rewrite ?Hb; simpl; unfold inf;
    repeat match goal with
           | |- context [if ?c then _ else _] => destruct c; simpl
           end; reflexivity.
Qed.

Lemma sub_not_finite (a q : num) :
  is_finite q = false -> is_finite (sub a q) = false.
Proof.
  unfold sub, neg, add.
  destruct q as [y| | | |]; simpl; intros Hq; try discriminate;
    destruct a; reflexivity.
Qed.

Lemma derivative_ok_inv r cs ts cel d :
  steinhart_hart_derivative r cs ts cel = Ok d ->
  length cs = length ts /\ cs <> [].
Proof.
  unfold steinhart_hart_derivative, assert_. intros H.
  destruct (Nat.eqb (length cs) (length ts)) eqn:E; simpl in H;
    [|discriminate].
  apply Nat.eqb_eq in E. split; [exact E|].
  intros ->. destruct ts; [|discriminate].
  unfold sh_dp_dr, sh_p in H. cbn [combine fold_left rbind] in H.
  unfold s_pow in H. cbn [is_zero] in H.
  rewrite (pow_Fin 0 2) in H by lia. cbn [Z.ltb Z.compare andb rbind] in H.
  rewrite andb_false_r in H. cbn [rbind] in H.
  unfold s_div, s_neg in H. cbn [is_zero] in H.
  rewrite (Reqb_true (0 ^ Z.to_nat 2) 0) in H by (simpl; lra).
  discriminate.
Qed.

(** C4 (amended).  Where the derivative is zero at an iterate, the loop body
    neither raises nor replaces the step: it divides the residual by the
    zero derivative, the quotient is an infinity or NaN, and the next
    iterate is max(r - quotient, min_resistance), which is min_resistance
    itself or not a finite number. *)
Theorem zero_derivative_is_divided_by T cs ts cel minr r d :
  steinhart_hart_derivative r cs ts cel = Ok d ->
  is_zero (val d) = true ->
  exists t q,
    steinhart_hart r cs ts cel = Ok t /\
    s_div (s_sub t T) d = Ok q /\
    is_finite (val q) = false /\
    newton_update T cs ts cel minr r
      = Ok (s_sub t T, pymax (s_sub r q) minr) /\
    (pymax (s_sub r q) minr = minr \/
     is_finite (val (pymax (s_sub r q) minr)) = false).
Proof.
  intros Hd Hz.
  destruct (derivative_ok_inv _ _ _ _ _ Hd) as [Hl Hne].
  destruct (steinhart_hart_ok cs ts Hl Hne r cel) as (t & Ht & Hnp).
  assert (Hf : is_py (s_sub t T) = false).
  { unfold s_sub. rewrite is_py_tagged, Hnp. reflexivity. }
  exists t, (NpFloat (div (val (s_sub t T)) (val d))).
  split; [exact Ht|]. split; [apply s_div_np_l; exact Hf|].
  split; [apply div_by_zero_not_finite; exact Hz|]. split.
  - unfold newton_update. rewrite Ht, Hd. cbn [rbind].
    rewrite (s_div_np_l _ _ Hf). reflexivity.
  - unfold pymax. destruct (s_ltb _ minr); [left; reflexivity|right].
    unfold s_sub, tagged. rewrite andb_false_r. cbn [val].
    apply sub_not_finite, div_by_zero_not_finite. exact Hz.
Qed.

(** C4 (as stated) fails on the one-term model with exponent 0: the
    derivative is zero at the initial guess, nothing is detected, the
    residual is divided by it, the infinite quotient drives the iterate to
    the floor, and the floor is returned as the result. *)
Lemma zero_derivative_is_not_detected :
  steinhart_hart_derivative default_guess flat_coefficients flat_terms true
    = Ok (NpFloat NegZero) /\
  is_zero (val (NpFloat NegZero)) = true /\
  s_div (NpFloat (Fin (-297.15))) (NpFloat NegZero) = Ok (NpFloat PosInf) /\
  newton_update flat_temperature flat_coefficients flat_terms true
                default_floor default_guess
    = Ok (NpFloat (Fin (-297.15)),
          pymax (s_sub default_guess (NpFloat PosInf)) default_floor) /\
  inverse_steinhart_hart flat_temperature flat_coefficients flat_terms
    default_guess true default_floor 500 default_tolerance
    = Ok default_floor.
Proof.
  split; [apply flat_derivative|]. split; [reflexivity|]. split.
  - unfold s_div. cbn [val]. rewrite div_negative_by_negzero by lra.
    reflexivity.
  - split.
    + rewrite (flat_update default_guess 1) by reflexivity. reflexivity.
    + apply flat_inverse. lia.
Qed.








Lemma convergence_test_uses_previous_residual_witness :
  length [(NpFloat (Fin 0), NpFloat (Fin 1))] = 1%nat /\
  newton_update demo_temperature demo_coefficients demo_terms true
    default_floor
    (iterate_before [(NpFloat (Fin 0), NpFloat (Fin 1))] default_guess 0)
    = Ok (NpFloat (Fin 0), NpFloat (Fin 1)) /\
  inverse_steinhart_hart demo_temperature demo_coefficients demo_terms
    default_guess true default_floor 500 default_tolerance
    = Ok (NpFloat (Fin 1)).
Proof.
  exact (convergence_test_uses_previous_residual
           demo_temperature demo_coefficients demo_terms default_guess true
           default_floor 500 default_tolerance
           [(NpFloat (Fin 0), NpFloat (Fin 1))] 0
           (NpFloat (Fin 0)) (NpFloat (Fin 1))
           (demo_passes 500 ltac:(lia)) eq_refl
           demo_residual_within_tolerance).
Defined.

Lemma py_zero_default_guess : py_zero default_guess = false.
Proof.
  unfold py_zero, default_guess. cbn [is_py val is_zero andb].
  apply Reqb_false. lra.
Qed.

Lemma py_zero_default_floor : py_zero default_floor = false.
Proof.
  unfold py_zero, default_floor. cbn [is_py val is_zero andb].
  apply Reqb_false. lra.
Qed.

Lemma flat_terms_machine : Forall machine_exponent flat_terms.
Proof. repeat constructor; unfold machine_exponent; lia. Qed.

Lemma inverse_terminates_and_returns_last_iterate_witness :
  exists ps,
    inverse_passes flat_temperature flat_coefficients flat_terms
      default_guess true default_floor 500 default_tolerance = Ok ps /\
    (Z.of_nat (length ps) <= 500)%Z /\
    inverse_steinhart_hart flat_temperature flat_coefficients flat_terms
      default_guess true default_floor 500 default_tolerance
      = Ok (last_iterate ps default_guess) /\
    (forall n fr, nth_error ps n = Some fr ->
                  s_ltb (np_abs (fst fr)) default_tolerance = true ->
                  length ps = S n) /\
    ((Z.of_nat (length ps) < 500)%Z ->
     exists fr, nth_error ps (length ps - 1) = Some fr /\
                s_ltb (np_abs (fst fr)) default_tolerance = true).
Proof.
  apply (proj2 (inverse_terminates_and_returns_last_iterate
                  flat_temperature flat_coefficients flat_terms
                  default_guess true default_floor 500 default_tolerance)).
  - lia.
  - reflexivity.
  - discriminate.
  - exact flat_terms_machine.
  - exact py_zero_default_guess.
  - exact py_zero_default_floor.
Defined.

Lemma zero_derivative_is_divided_by_witness :
  exists t q,
    steinhart_hart default_guess flat_coefficients flat_terms true = Ok t /\
    s_div (s_sub t flat_temperature) (NpFloat NegZero) = Ok q /\
    is_finite (val q) = false /\
    newton_update flat_temperature flat_coefficients flat_terms true
                  default_floor default_guess
      = Ok (s_sub t flat_temperature,
            pymax (s_sub default_guess q) default_floor) /\
    (pymax (s_sub default_guess q) default_floor = default_floor \/
     is_finite (val (pymax (s_sub default_guess q) default_floor)) = false).
Proof.
  exact (zero_derivative_is_divided_by
           flat_temperature flat_coefficients flat_terms true default_floor
           default_guess (NpFloat NegZero)
           (flat_derivative default_guess) eq_refl).
Defined.

(** ** The lookup tables and the unit flag *)

Lemma demo_resistance_lut :
  steinhart_hart_to_resistance_lut [demo_temperature] demo_coefficients
    demo_terms false 1000 default_tolerance
  = ([EvInverse], Ok [(Fin 26.85, Fin 1)]).
Proof.
  unfold steinhart_hart_to_resistance_lut, sample_resistances_of.
  cbn [length demo_coefficients Nat.leb Nat.ltb massert lift assert_ mbind
       mapM tell ret app].
  fold demo_coefficients. fold default_guess. fold default_floor.
  rewrite demo_inverse by lia. reflexivity.
Qed.

(** C1.  Both table builders evaluate the inverse model in Celsius whatever
    unit flag they are given: the table does not depend on the flag.  With
    the flag set to Kelvin, the sample model and a sample temperature of
    26.85 give the row (26.85, 1), and the Kelvin model maps a resistance of
    1 to 300, not to 26.85. *)
Theorem lut_builders_ignore_unit_flag :
  (forall sample_temps cs ts flag mi tol,
      steinhart_hart_to_resistance_lut sample_temps cs ts flag mi tol
      = steinhart_hart_to_resistance_lut sample_temps cs ts true mi tol) /\
  (forall sample_temps bits vref pull cs ts flag mi tol,
      steinhart_hart_to_adc_lut sample_temps bits vref pull cs ts flag mi tol
      = steinhart_hart_to_adc_lut sample_temps bits vref pull cs ts true
                                  mi tol) /\
  outcome (steinhart_hart_to_resistance_lut [demo_temperature]
             demo_coefficients demo_terms false 1000 default_tolerance)
    = Ok [(Fin 26.85, Fin 1)] /\
  steinhart_hart (NpFloat (Fin 1)) demo_coefficients demo_terms false
    = Ok (NpFloat (Fin 300)) /\
  s_ltb (np_abs (s_sub (NpFloat (Fin 300)) demo_temperature))
        default_tolerance = false.
Proof.
  split; [reflexivity|]. split; [reflexivity|]. split.
  - rewrite demo_resistance_lut. reflexivity.
  - split.
    + apply demo_steinhart_hart_kelvin. reflexivity.
    + unfold demo_temperature, default_tolerance. scalar_eval.
      rewrite sub_Fin. unfold s_ltb, abs, ltb. cbn [val fval].
      apply Rltb_false. rewrite Rabs_right by lra. lra.
Qed.

(** ** Preconditions of the fit *)

(** C6.  Called with temperature and resistance lists of different lengths,
    with no exponent, or with fewer measurements than exponents,
    [fit_steinhart_hart] raises [AssertionError] with the message of an
    invariant that is violated, whatever the solver is, and its log is
    empty: neither the design matrix nor the solver was reached. *)
Theorem fit_fails_fast
    (lstsq : matrix -> list num -> result (list num))
    (temperature resistance : list num) (powers : list Z) (cel : bool) :
  length temperature <> length resistance \/ powers = [] \/
  (length temperature < length powers)%nat ->
  exists msg,
    fit_steinhart_hart lstsq temperature resistance powers cel
      = ([], Raise (AssertionError msg)) /\
    ((msg = msg_pairs_same /\ length temperature <> length resistance) \/
     (msg = msg_pairs_at_least /\
      (length temperature < length powers)%nat) \/
     (msg = msg_powers_at_least /\ powers = [])).
Proof.
  intros H. unfold fit_steinhart_hart, massert, lift, assert_.
  destruct (Nat.eqb (length temperature) (length resistance)) eqn:E1.
  - apply Nat.eqb_eq in E1.
    destruct (Nat.leb (length powers) (length temperature)) eqn:E2.
    + apply Nat.leb_le in E2.
      destruct powers as [|p powers].
      * exists msg_powers_at_least. split; [reflexivity|]. auto.
      * exfalso. destruct H as [H|[H|H]]; [contradiction|discriminate|lia].
    + apply Nat.leb_gt in E2.
      exists msg_pairs_at_least. split; [reflexivity|]. auto.
  - apply Nat.eqb_neq in E1.
    exists msg_pairs_same. split; [reflexivity|]. auto.
Qed.

Lemma fit_fails_fast_witness :
  exists msg,
    fit_steinhart_hart (fun _ b => Ok b) [Fin 25; Fin 50] [Fin 10000]
                       [0; 1; 3]%Z true
      = ([], Raise (AssertionError msg)) /\
    ((msg = msg_pairs_same /\
      length [Fin 25; Fin 50] <> length [Fin 10000]) \/
     (msg = msg_pairs_at_least /\
      (length [Fin 25; Fin 50] < length [0; 1; 3]%Z)%nat) \/
     (msg = msg_powers_at_least /\ [0; 1; 3]%Z = [])).
Proof.
  apply (fit_fails_fast (fun _ b => Ok b) [Fin 25; Fin 50] [Fin 10000]
                        [0; 1; 3]%Z true).
  left. simpl. lia.
Defined.

(** ** Device parameters *)

Lemma fit_steinhart_hart_checked lstsq temperature resistance powers cel :
  length temperature = length resistance ->
  (length powers <= length temperature)%nat ->
  (1 <= length powers)%nat ->
  fit_steinhart_hart lstsq temperature resistance powers cel
  = ([EvDesignMatrix; EvLstsq],
     lstsq (design_matrix (length temperature) (map log resistance) powers)
           (inverse_temperatures temperature cel)).
Proof.
  intros H1 H2 H3. unfold fit_steinhart_hart, massert, lift, assert_.
  rewrite (proj2 (Nat.eqb_eq _ _) H1).
  rewrite (proj2 (Nat.leb_le _ _) H2).
  rewrite (proj2 (Nat.leb_le _ _) H3).
  cbn [mbind tell app ret].
  destruct (lstsq _ _); reflexivity.
Qed.

(** C9 (amended).  [steinhart_hart_to_adc_lut] raises [AssertionError] with
    an empty log when the resolution is below 1 or the reference voltage or
    the pull-up resistance is not positive; with at least one coefficient
    the message names such a parameter.  [fit_adc_lut] checks only the
    lengths of its lists at its entry: once they pass, it converts the ADC
    values to resistances first, whatever the device parameters are.  With
    a non-positive reference voltage or pull-up resistance, or a target
    resolution below 1, it never returns a table: when the fit on the
    converted resistances returns, the nested table builder raises its
    [AssertionError] after the conversion and the fit; when the fit raises,
    that exception ends the call and the device parameter is not
    reported. *)
Theorem device_parameters_checked_in_table_builder :
  (forall sample_temps bits vref pull cs ts flag mi tol,
      (bits < 1)%Z \/ ltb (Fin 0) vref = false \/ ltb (Fin 0) pull = false ->
      exists msg,
        steinhart_hart_to_adc_lut sample_temps bits vref pull cs ts flag
                                  mi tol
          = ([], Raise (AssertionError msg)) /\
        (cs <> [] ->
         (msg = msg_adc_resolution /\ (bits < 1)%Z) \/
         (msg = msg_reference_voltage /\ ltb (Fin 0) vref = false) \/
         (msg = msg_pull_up /\ ltb (Fin 0) pull = false))) /\
  (forall lstsq measured sample adc src tgt vref pull powers cel mi tol,
      measured <> [] -> length measured = length adc -> powers <> [] ->
      exists rest,
        events (fit_adc_lut lstsq measured sample adc src tgt vref pull
                            powers cel mi tol)
          = EvAdcToResistance :: rest) /\
  (forall lstsq measured sample adc src tgt vref pull powers cel mi tol x,
      measured <> [] -> length measured = length adc -> powers <> [] ->
      (length powers <= length measured)%nat ->
      lstsq (design_matrix (length measured)
               (map log (adc_to_resistance adc src vref pull)) powers)
            (inverse_temperatures measured cel) = Ok x ->
      (tgt < 1)%Z \/ ltb (Fin 0) vref = false \/ ltb (Fin 0) pull = false ->
      exists msg,
        fit_adc_lut lstsq measured sample adc src tgt vref pull powers cel
                    mi tol
          = ([EvAdcToResistance; EvDesignMatrix; EvLstsq],
             Raise (AssertionError msg))) /\
  (forall lstsq measured sample adc src tgt vref pull powers cel mi tol,
      measured <> [] -> length measured = length adc -> powers <> [] ->
      (tgt < 1)%Z \/ ltb (Fin 0) vref = false \/ ltb (Fin 0) pull = false ->
      (exists e,
          outcome (fit_adc_lut lstsq measured sample adc src tgt vref pull
                               powers cel mi tol) = Raise e) /\
      (forall ev x,
          fit_steinhart_hart lstsq measured
            (adc_to_resistance adc src vref pull) powers cel = (ev, Ok x) ->
          exists msg,
            fit_adc_lut lstsq measured sample adc src tgt vref pull powers
                        cel mi tol
              = (EvAdcToResistance :: ev, Raise (AssertionError msg))) /\
      (forall ev e,
          fit_steinhart_hart lstsq measured
            (adc_to_resistance adc src vref pull) powers cel
            = (ev, Raise e) ->
          fit_adc_lut lstsq measured sample adc src tgt vref pull powers
                      cel mi tol
            = (EvAdcToResistance :: ev, Raise e))).
Proof.
  assert (Hbuilder :
            forall sample_temps bits vref pull cs ts flag mi tol,
              (bits < 1)%Z \/ ltb (Fin 0) vref = false \/
              ltb (Fin 0) pull = false ->
              exists msg,
                steinhart_hart_to_adc_lut sample_temps bits vref pull cs ts
                                          flag mi tol
                = ([], Raise (AssertionError msg))).
  { intros sample_temps bits vref pull cs ts flag mi tol H.
    unfold steinhart_hart_to_adc_lut, massert, lift, assert_.
    destruct (Nat.leb 1 (length cs)); cbn [mbind app];
      [|eexists; reflexivity].
    destruct (Z.leb_spec 1 bits) as [Hb|Hb]; cbn [mbind app];
      [|eexists; reflexivity].
    destruct (ltb (Fin 0) vref) eqn:Ev; cbn [mbind app];
      [|eexists; reflexivity].
    destruct (ltb (Fin 0) pull) eqn:Ep; cbn [mbind app];
      [|eexists; reflexivity].
    exfalso. destruct H as [H|[H|H]]; [lia|discriminate..]. }
  assert (Hentry :
            forall (lstsq : matrix -> list num -> result (list num))
                   measured sample adc src tgt vref pull powers cel mi tol,
              measured <> [] -> length measured = length adc ->
              powers <> [] ->
              fit_adc_lut lstsq measured sample adc src tgt vref pull powers
                          cel mi tol
              = (tell EvAdcToResistance ;;
                 sh_coeffs <-
                   fit_steinhart_hart lstsq measured
                     (adc_to_resistance adc src vref pull) powers cel ;;
                 table <-
                   steinhart_hart_to_adc_lut (map NpFloat sample) tgt vref
                     pull (map NpFloat sh_coeffs) powers cel mi tol ;;
                 ret (table, sh_coeffs))%M).
  { intros lstsq measured sample adc src tgt vref pull powers cel mi tol
           Hm Hl Hp.
    unfold fit_adc_lut, massert, lift, assert_.
    rewrite (proj2 (Nat.eqb_eq _ _) Hl).
    destruct measured as [|m measured]; [contradiction|].
    destruct powers as [|p powers]; [contradiction|].
    cbn [length Nat.ltb Nat.leb mbind].
    destruct (tell EvAdcToResistance ;; _)%M as [l r]. reflexivity. }
  split; [|split; [|split]].
  - intros sample_temps bits vref pull cs ts flag mi tol H.
    unfold steinhart_hart_to_adc_lut, massert, lift, assert_.
    destruct cs as [|c cs]; cbn [length Nat.leb mbind].
    + eexists; split; [reflexivity|]. intros Hc; contradiction.
    + destruct (Z.leb_spec 1 bits) as [Hb|Hb]; cbn [mbind app].
      * destruct (ltb (Fin 0) vref) eqn:Ev; cbn [mbind app].
        -- destruct (ltb (Fin 0) pull) eqn:Ep; cbn [mbind app].
           ++ exfalso. destruct H as [H|[H|H]]; [lia|discriminate..].
           ++ eexists; split; [reflexivity|]. auto.
        -- eexists; split; [reflexivity|]. auto.
      * eexists; split; [reflexivity|]. auto.
  - intros lstsq measured sample adc src tgt vref pull powers cel mi tol
           Hm Hl Hp.
    unfold fit_adc_lut, massert, lift, assert_.
    destruct measured as [|m measured]; [contradiction|].
    destruct powers as [|p powers]; [contradiction|].
    rewrite (proj2 (Nat.eqb_eq _ _) Hl).
    cbn [length Nat.ltb Nat.leb mbind tell app].
    destruct (fit_steinhart_hart _ _ _ _ _) as [l [x|e]]; cbn [mbind].
    + destruct (steinhart_hart_to_adc_lut _ _ _ _ _ _ _ _ _) as [l' [y|e]];
        cbn [mbind ret]; eexists; reflexivity.
    + eexists; reflexivity.
  - intros lstsq measured sample adc src tgt vref pull powers cel mi tol x
           Hm Hl Hp Hle Hx Hbad.
    unfold fit_adc_lut, massert, lift, assert_.
    rewrite (proj2 (Nat.eqb_eq _ _) Hl).
    rewrite fit_steinhart_hart_checked; try (destruct powers; simpl; [contradiction|lia]); try exact Hle.
    2: { unfold adc_to_resistance. rewrite !length_map. exact Hl. }
    rewrite Hx.
    destruct measured as [|m measured]; [contradiction|].
    destruct powers as [|p powers]; [contradiction|].
    cbn [length Nat.ltb Nat.leb mbind tell app].
    unfold steinhart_hart_to_adc_lut, massert, lift, assert_.
    assert (Hx1 : Nat.leb 1 (length (map NpFloat x)) = true \/
                  Nat.leb 1 (length (map NpFloat x)) = false)
      by (destruct (Nat.leb 1 (length (map NpFloat x))); auto).
    destruct Hx1 as [-> | ->]; cbn [mbind app]; [|eexists; reflexivity].
    destruct (Z.leb_spec 1 tgt) as [Hb|Hb]; cbn [mbind app];
      [|eexists; reflexivity].
    destruct (ltb (Fin 0) vref) eqn:Ev; cbn [mbind app];
      [|eexists; reflexivity].
    destruct (ltb (Fin 0) pull) eqn:Ep; cbn [mbind app];
      [|eexists; reflexivity].
    exfalso. destruct Hbad as [H|[H|H]]; [lia|discriminate..].
  - intros lstsq measured sample adc src tgt vref pull powers cel mi tol
           Hm Hl Hp Hbad.
    rewrite (Hentry lstsq measured sample adc src tgt vref pull powers cel
                    mi tol Hm Hl Hp).
    split; [|split].
    + destruct (fit_steinhart_hart lstsq measured
                  (adc_to_resistance adc src vref pull) powers cel)
        as [ev [x|e]]; cbn [mbind tell app outcome snd].
      * destruct (Hbuilder (map NpFloat sample) tgt vref pull
                    (map NpFloat x) powers cel mi tol Hbad) as [msg ->].
        cbn [mbind]. eexists; reflexivity.
      * eexists; reflexivity.
    + intros ev x ->. cbn [mbind tell app].
      destruct (Hbuilder (map NpFloat sample) tgt vref pull
                  (map NpFloat x) powers cel mi tol Hbad) as [msg ->].
      cbn [mbind]. exists msg. rewrite app_nil_r. reflexivity.
    + intros ev e ->. reflexivity.
Qed.

(** C9 (as stated) fails for [fit_adc_lut]: with a negative reference
    voltage, one measurement and the exponent 0 (for which the solution of
    the 1x1 system is its right-hand side), the ADC values are converted and
    the solver is run before the voltage is rejected. *)
Lemma fit_adc_lut_converts_before_checking :
  fit_adc_lut (fun _ b => Ok b) [Fin 25] [Fin 50] [Fin 2048] 12 12
              (Fin (-3.3)) (Fin 4700) [0]%Z true 1000 default_tolerance
  = ([EvAdcToResistance; EvDesignMatrix; EvLstsq],
     Raise (AssertionError msg_reference_voltage)).
Proof.
  unfold fit_adc_lut, massert, lift, assert_.
  cbn [length Nat.ltb Nat.leb Nat.eqb mbind tell app].
  rewrite fit_steinhart_hart_checked; [|reflexivity|simpl; lia|simpl; lia].
  unfold inverse_temperatures. cbn [map mbind app].
  unfold steinhart_hart_to_adc_lut, massert, lift, assert_.
  cbn [length map Nat.leb Z.leb Z.compare Pos.compare Pos.compare_cont
       mbind app].
  unfold ltb at 1. cbn [fval]. rewrite Rltb_false by lra.
  reflexivity.
Qed.

Lemma device_parameters_checked_in_table_builder_witness :
  exists msg,
    steinhart_hart_to_adc_lut [demo_temperature] 0 (Fin 3.3) (Fin 4700)
      demo_coefficients demo_terms true 1000 default_tolerance
      = ([], Raise (AssertionError msg)) /\
    (demo_coefficients <> [] ->
     (msg = msg_adc_resolution /\ (0 < 1)%Z) \/
     (msg = msg_reference_voltage /\ ltb (Fin 0) (Fin 3.3) = false) \/
     (msg = msg_pull_up /\ ltb (Fin 0) (Fin 4700) = false)).
Proof.
  apply (proj1 device_parameters_checked_in_table_builder).
  left. lia.
Defined.

(** ** ADC codes and resistances, in binary64 *)










(** ** The design matrix built by the fit is the one of the specification *)

Lemma update_at_app (xs : list num) (v y : num) (ys : list num) :
  update_at (length xs) v (xs ++ y :: ys) = xs ++ v :: ys.
Proof. induction xs as [|x xs IH]; simpl; [reflexivity|]. rewrite IH. reflexivity. Qed.

Lemma set_column_map (L : list num) (k : nat) (g : num -> num)
    (h : num -> list num) :
  set_column k (map g L) (map h L) = map (fun l => update_at k (g l) (h l)) L.
Proof.
  unfold set_column. induction L as [|l L IH]; simpl; [reflexivity|].
  rewrite IH. reflexivity.
Qed.

Lemma firstn_succ_nth (powers : list Z) (k : nat) :
  (k < length powers)%nat ->
  firstn (S k) powers = firstn k powers ++ [nth k powers 0%Z].
Proof.
  revert k. induction powers as [|p powers IH]; intros k H; simpl in H;
    [lia|].
  destruct k as [|k]; [reflexivity|].
  cbn [firstn nth app]. rewrite <- IH by lia. reflexivity.
Qed.

Lemma map_const_repeat {A B} (c : B) (l : list A) :
  map (fun _ => c) l = repeat c (length l).
Proof. induction l as [|a l IH]; simpl; [reflexivity|]. rewrite IH. reflexivity. Qed.

Lemma design_matrix_columns (L : list num) (powers : list Z) (k : nat) :
  (k <= length powers)%nat ->
  fold_left
    (fun A i => set_column i (map (fun l => pow l (nth i powers 0%Z)) L) A)
    (seq 0 k)
    (zeros (length L) (length powers))
  = map (fun l => map (pow l) (firstn k powers)
                  ++ repeat (Fin 0) (length powers - k)) L.
Proof.
  induction k as [|k IH]; intros Hk.
  - cbn [seq fold_left firstn map app]. rewrite Nat.sub_0_r.
    unfold zeros. symmetry. apply map_const_repeat.
  - rewrite seq_S, fold_left_app, IH by lia. cbn [Nat.add fold_left].
    rewrite set_column_map. apply map_ext. intros l.
    replace (length powers - k)%nat with (S (length powers - S k)) by lia.
    cbn [repeat].
    assert (Hlen : length (map (pow l) (firstn k powers)) = k)
      by (rewrite length_map, length_firstn; lia).
    rewrite <- Hlen at 1. rewrite update_at_app.
    rewrite firstn_succ_nth by lia. rewrite map_app, <- app_assoc.
    reflexivity.
Qed.

Lemma design_matrix_spec (resistance : list num) (powers : list Z) :
  design_matrix (length resistance) (map log resistance) powers
  = spec_design_matrix resistance powers.
Proof.
  unfold design_matrix, spec_design_matrix.
  rewrite <- (length_map log resistance).
  rewrite design_matrix_columns by lia.
  rewrite firstn_all, Nat.sub_diag, map_map.
  apply map_ext. intros r. cbn [repeat]. apply app_nil_r.
Qed.

Lemma inverse_temperatures_spec (temperature : list num) (cel : bool) :
  inverse_temperatures temperature cel = spec_target temperature cel.
Proof.
  unfold inverse_temperatures, spec_target. apply map_ext.
  intros t. destruct cel; reflexivity.
Qed.

(** Past its assertions the fit calls the solver on the system of the
    specification and returns its result. *)
Lemma fit_steinhart_hart_spec_system
    (lstsq : matrix -> list num -> result (list num))
    (temperature resistance : list num) (powers : list Z) (cel : bool) :
  length temperature = length resistance ->
  (1 <= length powers)%nat ->
  (length powers <= length temperature)%nat ->
  fit_steinhart_hart lstsq temperature resistance powers cel
  = ([EvDesignMatrix; EvLstsq],
     lstsq (spec_design_matrix resistance powers)
           (spec_target temperature cel)).
Proof.
  intros Hl Hp Hn.
  rewrite fit_steinhart_hart_checked by assumption.
  rewrite Hl, design_matrix_spec, inverse_temperatures_spec. reflexivity.
Qed.




(** * Further properties of the code *)

(** ** Finite numbers *)

Lemma finite_not_nan_inf (a : num) :
  is_finite a = true -> is_nan a = false /\ is_inf a = false.
Proof. destruct a; simpl; intros H; try discriminate; auto. Qed.

(** ** Values of scalar operations *)

Lemma val_tagged a b v : val (tagged a b v) = v.
Proof. unfold tagged. destruct (is_py a && is_py b); reflexivity. Qed.

Lemma val_s_sub a b : val (s_sub a b) = sub (val a) (val b).
Proof. apply val_tagged. Qed.

Lemma s_div_nonzero a b :
  is_zero (val b) = false ->
  exists q, s_div a b = Ok q /\ val q = div (val a) (val b).
Proof.
  unfold s_div. destruct a as [x|x], b as [y|y]; cbn [val]; intros H;
    try (eexists; split; reflexivity).
  rewrite H. eexists; split; reflexivity.
Qed.

(** ** When the forward model and its derivative raise *)

Lemma steinhart_hart_cases (r : scalar) (cs : list scalar)
    (ts : list Z) (cel : bool) :
  steinhart_hart r cs ts cel
  = if negb (Nat.eqb (length cs) (length ts))
    then Raise (AssertionError msg_coeff_terms)
    else match cs with
         | [] => Raise ZeroDivisionError
         | _ :: _ =>
             Ok (NpFloat
                   (if cel
                    then sub (div (Fin 1) (val (sh_p r cs ts))) (Fin 273.15)
                    else div (Fin 1) (val (sh_p r cs ts))))
         end.
Proof.
  unfold steinhart_hart, assert_.
  destruct (Nat.eqb (length cs) (length ts)) eqn:E; cbn [negb rbind];
    [|reflexivity].
  apply Nat.eqb_eq in E.
  destruct cs as [|c cs].
  - destruct ts; [|discriminate]. unfold sh_p, s_div.
    cbn [combine fold_left is_zero]. rewrite Reqb_true by reflexivity.
    reflexivity.
  - rewrite s_div_np_r
      by (apply (sh_p_np (c :: cs) ts E); discriminate).
    cbn [rbind val]. destruct cel; reflexivity.
Qed.

(** X3.  For exponents that fit a signed 32-bit integer, [steinhart_hart]
    raises [AssertionError] when the lists differ in length and
    [ZeroDivisionError] when both are empty; in every other case it returns
    a numpy value, an infinity where the polynomial is zero. *)
Theorem steinhart_hart_outcome (r : scalar) (cs : list scalar)
    (ts : list Z) (cel : bool) :
  Forall machine_exponent ts ->
  steinhart_hart r cs ts cel
  = if negb (Nat.eqb (length cs) (length ts))
    then Raise (AssertionError msg_coeff_terms)
    else match cs with
         | [] => Raise ZeroDivisionError
         | _ :: _ =>
             Ok (NpFloat
                   (if cel
                    then sub (div (Fin 1) (val (sh_p r cs ts))) (Fin 273.15)
                    else div (Fin 1) (val (sh_p r cs ts))))
         end.
Proof. intros _. apply steinhart_hart_cases. Qed.

Lemma demo_terms_machine : Forall machine_exponent demo_terms.
Proof. repeat constructor; unfold machine_exponent; lia. Qed.

Lemma steinhart_hart_outcome_witness :
  steinhart_hart default_guess demo_coefficients demo_terms true
  = if negb (Nat.eqb (length demo_coefficients) (length demo_terms))
    then Raise (AssertionError msg_coeff_terms)
    else match demo_coefficients with
         | [] => Raise ZeroDivisionError
         | _ :: _ =>
             Ok (NpFloat
                   (sub (div (Fin 1)
                             (val (sh_p default_guess demo_coefficients
                                        demo_terms)))
                        (Fin 273.15)))
         end.
Proof.
  exact (steinhart_hart_outcome default_guess demo_coefficients demo_terms
                                true demo_terms_machine).
Defined.

Lemma sh_dp_dr_fold_raise r l :
  fold_left (sh_dp_dr_step r) l (Raise ZeroDivisionError)
  = Raise ZeroDivisionError.
Proof.
  induction l as [|[c p] l IH]; [reflexivity|]. cbn [fold_left]. exact IH.
Qed.

Lemma sh_dp_dr_fold_py_zero r l :
  py_zero r = true ->
  forall acc,
    fold_left (sh_dp_dr_step r) l (Ok acc)
    = if existsb (fun cp => (0 <? snd cp)%Z) l then Raise ZeroDivisionError
      else Ok acc.
Proof.
  intros Hr. induction l as [|[c p] l IH]; intros acc; [reflexivity|].
  cbn [fold_left existsb snd sh_dp_dr_step rbind].
  destruct (0 <? p)%Z; cbn [orb].
  - unfold py_zero in Hr. destruct r as [y|y]; cbn [is_py val andb] in Hr;
      [|discriminate].
    unfold s_div. rewrite Hr. cbn [rbind]. apply sh_dp_dr_fold_raise.
  - apply IH.
Qed.

Lemma steinhart_hart_derivative_cases (r : scalar) (cs : list scalar)
    (ts : list Z) (cel : bool) :
  length cs = length ts ->
  if (match cs with [] => true | _ => false end)
     || (py_zero r && existsb (fun p => (0 <? p)%Z) ts)
  then steinhart_hart_derivative r cs ts cel = Raise ZeroDivisionError
  else exists d,
      steinhart_hart_derivative r cs ts cel = Ok d /\ is_py d = false.
Proof.
  intros Hl. destruct cs as [|c cs].
  - destruct ts; [|discriminate]. cbn [orb].
    unfold steinhart_hart_derivative, sh_dp_dr, sh_p, s_pow, s_div, s_neg.
    cbn [length Nat.eqb assert_ rbind combine fold_left is_zero andb
         Z.ltb Z.compare].
    rewrite andb_false_r. cbn [rbind]. rewrite (pow_Fin 0 2) by lia.
    cbn [is_zero]. rewrite Reqb_true by (simpl; lra). reflexivity.
  - cbn [orb]. destruct (py_zero r) eqn:Hr; cbn [andb].
    + assert (Hex : existsb (fun cp : scalar * Z => (0 <? snd cp)%Z)
                            (combine (c :: cs) ts)
                    = existsb (fun p => (0 <? p)%Z) ts).
      { clear Hr. revert Hl. generalize (c :: cs). intros l. revert ts.
        induction l as [|a l IH]; intros [|p ts] Hl; try discriminate;
          [reflexivity|].
        cbn [combine existsb snd]. rewrite IH by (simpl in Hl; lia).
        reflexivity. }
      unfold steinhart_hart_derivative, sh_dp_dr.
      rewrite (assert_length_eq _ _ Hl). cbn [rbind].
      rewrite (sh_dp_dr_fold_py_zero r _ Hr), Hex.
      destruct (existsb (fun p => (0 <? p)%Z) ts).
      * reflexivity.
      * cbn [rbind].
        pose proof (sh_p_np (c :: cs) ts Hl ltac:(discriminate) r) as Hp.
        destruct (sh_p r (c :: cs) ts) as [v|v]; [discriminate|].
        unfold s_pow, s_div, s_neg. cbn [rbind val].
        eexists; split; reflexivity.
    + apply (steinhart_hart_derivative_ok (c :: cs) ts Hl
               ltac:(discriminate) r cel Hr).
Qed.

(** X4.  With lists of equal length and exponents that fit a signed 32-bit
    integer, [steinhart_hart_derivative] raises [ZeroDivisionError] when the
    lists are empty, or when the resistance is the Python float zero and
    some exponent is positive; in every other case it returns a numpy
    value. *)
Theorem steinhart_hart_derivative_outcome (r : scalar) (cs : list scalar)
    (ts : list Z) (cel : bool) :
  length cs = length ts ->
  Forall machine_exponent ts ->
  if (match cs with [] => true | _ => false end)
     || (py_zero r && existsb (fun p => (0 <? p)%Z) ts)
  then steinhart_hart_derivative r cs ts cel = Raise ZeroDivisionError
  else exists d,
      steinhart_hart_derivative r cs ts cel = Ok d /\ is_py d = false.
Proof. intros Hl _. apply steinhart_hart_derivative_cases, Hl. Qed.

Lemma steinhart_hart_derivative_outcome_witness :
  steinhart_hart_derivative (PyFloat (Fin 0)) demo_coefficients demo_terms
                            true
  = Raise ZeroDivisionError.
Proof.
  pose proof (steinhart_hart_derivative_outcome (PyFloat (Fin 0))
                demo_coefficients demo_terms true eq_refl
                demo_terms_machine) as H.
  unfold py_zero in H.
  cbn [demo_coefficients demo_terms orb is_py val is_zero andb existsb
       Z.ltb Z.compare] in H.
  rewrite (Reqb_true 0 0 eq_refl) in H. exact H.
Defined.

(** ** Edge cases of the root finder *)

(** X5.  With lists of equal length and exponents that fit a signed 32-bit
    integer, [inverse_steinhart_hart] returns the initial guess itself when
    [max_iterations] is zero or negative, even for empty lists; with
    [max_iterations] at least 1 it raises [ZeroDivisionError] for empty
    lists, and also when the initial guess is the Python float zero and some
    exponent is positive. *)
Theorem inverse_steinhart_hart_edge_cases (T : scalar) (cs : list scalar)
    (ts : list Z) (init : scalar) (cel : bool) (minr : scalar) (mi : Z)
    (tol : scalar) :
  length cs = length ts ->
  Forall machine_exponent ts ->
  ((mi <= 0)%Z ->
   inverse_steinhart_hart T cs ts init cel minr mi tol = Ok init) /\
  ((1 <= mi)%Z -> cs = [] ->
   inverse_steinhart_hart T cs ts init cel minr mi tol
   = Raise ZeroDivisionError) /\
  ((1 <= mi)%Z -> cs <> [] -> py_zero init = true ->
   existsb (fun p => (0 <? p)%Z) ts = true ->
   inverse_steinhart_hart T cs ts init cel minr mi tol
   = Raise ZeroDivisionError).
Proof.
  intros Hl _. unfold inverse_steinhart_hart.
  rewrite (assert_length_eq cs ts Hl). cbn [rbind].
  split; [|split].
  - intros Hmi. replace (Z.to_nat mi) with 0%nat by lia. reflexivity.
  - intros Hmi ->. destruct ts; [|discriminate].
    destruct (Z.to_nat mi) as [|k] eqn:E; [lia|].
    cbn [newton_loop]. unfold newton_update.
    rewrite steinhart_hart_cases. reflexivity.
  - intros Hmi Hne Hz Hex.
    destruct (Z.to_nat mi) as [|k] eqn:E; [lia|].
    cbn [newton_loop]. unfold newton_update.
    destruct (steinhart_hart_ok cs ts Hl Hne init cel) as (t & -> & _).
    cbn [rbind].
    pose proof (steinhart_hart_derivative_cases init cs ts cel Hl) as Hd.
    rewrite Hz, Hex in Hd. cbn [andb] in Hd. rewrite orb_true_r in Hd.
    rewrite Hd. reflexivity.
Qed.

Lemma inverse_steinhart_hart_edge_cases_witness :
  inverse_steinhart_hart demo_temperature demo_coefficients demo_terms
    (PyFloat (Fin 0)) true default_floor 500 default_tolerance
  = Raise ZeroDivisionError.
Proof.
  apply (proj2 (proj2 (inverse_steinhart_hart_edge_cases demo_temperature
                         demo_coefficients demo_terms (PyFloat (Fin 0)) true
                         default_floor 500 default_tolerance eq_refl
                         demo_terms_machine))).
  - lia.
  - discriminate.
  - unfold py_zero. cbn [is_py val is_zero andb].
    apply Reqb_true. reflexivity.
  - reflexivity.
Defined.

Lemma div_zero_numerator (a d : num) :
  is_zero a = true -> is_finite a = true ->
  is_nan d = false -> is_zero d = false ->
  exists s, div a d = zero s.
Proof.
  intros Za Fa Nd Zd. unfold div.
  destruct (finite_not_nan_inf a Fa) as [-> ->]. rewrite Nd. cbn [orb].
  destruct (is_inf d); [eexists; reflexivity|].
  rewrite Zd, Za. eexists; reflexivity.
Qed.

Lemma sub_zero_r (x : R) (s : bool) :
  exists x', sub (Fin x) (zero s) = Fin x' /\ x' = x.
Proof.
  destruct s; unfold sub, neg, zero.
  - exists (x + 0). split; [reflexivity|lra].
  - rewrite Reqb_true by reflexivity. exists x. split; reflexivity.
Qed.

(** X6.  Started at a resistance at which the model gives exactly the
    requested temperature, with a derivative there that is neither zero nor
    NaN, a guess not below the floor and a positive tolerance,
    [inverse_steinhart_hart] returns that resistance after a single pass. *)
Theorem exact_root_is_returned (T : scalar) (cs : list scalar) (ts : list Z)
    (init : scalar) (cel : bool) (minr : scalar) (mi : Z) (tol : scalar)
    (x a : R) (t d : scalar) :
  (1 <= mi)%Z ->
  val init = Fin x ->
  steinhart_hart init cs ts cel = Ok t ->
  val t = Fin a -> val T = Fin a ->
  steinhart_hart_derivative init cs ts cel = Ok d ->
  is_nan (val d) = false -> is_zero (val d) = false ->
  s_ltb init minr = false ->
  s_ltb (PyFloat (Fin 0)) tol = true ->
  exists r',
    inverse_passes T cs ts init cel minr mi tol = Ok [(s_sub t T, r')] /\
    inverse_steinhart_hart T cs ts init cel minr mi tol = Ok r' /\
    val r' = Fin x.
Proof.
  intros Hmi Hi Ht Vt VT Hd Nd Zd Hfloor Htol.
  destruct (derivative_ok_inv _ _ _ _ _ Hd) as [Hl Hne].
  assert (Vf : val (s_sub t T) = Fin (a - a))
    by (rewrite val_s_sub, Vt, VT; apply sub_Fin).
  destruct (s_div_nonzero (s_sub t T) d Zd) as (q & Hq & Vq).
  rewrite Vf in Vq.
  destruct (div_zero_numerator (Fin (a - a)) (val d)) as [s Hs];
    [cbn [is_zero]; apply Reqb_true; lra|reflexivity|exact Nd|exact Zd|].
  rewrite Hs in Vq.
  destruct (sub_zero_r x s) as (x' & Hx' & Ex). subst x'.
  assert (Vr : val (s_sub init q) = Fin x)
    by (rewrite val_s_sub, Hi, Vq; exact Hx').
  assert (Hu : newton_update T cs ts cel minr init
               = Ok (s_sub t T, s_sub init q)).
  { unfold newton_update. rewrite Ht, Hd. cbn [rbind]. rewrite Hq.
    cbn [rbind]. unfold pymax.
    replace (s_ltb (s_sub init q) minr) with (s_ltb init minr)
      by (unfold s_ltb; rewrite Vr, Hi; reflexivity).
    rewrite Hfloor. reflexivity. }
  assert (Hres : s_ltb (np_abs (s_sub t T)) tol = true).
  { unfold s_ltb, np_abs. cbn [val]. rewrite Vf. unfold abs.
    replace (Rabs (a - a)) with 0
      by (rewrite Rminus_diag; symmetry; apply Rabs_R0).
    exact Htol. }
  assert (Hp : inverse_passes T cs ts init cel minr mi tol
               = Ok [(s_sub t T, s_sub init q)]).
  { unfold inverse_passes. rewrite (assert_length_eq cs ts Hl). cbn [rbind].
    destruct (Z.to_nat mi) as [|k] eqn:E; [lia|].
    cbn [newton_passes]. rewrite Hu. cbn [rbind fst]. rewrite Hres.
    reflexivity. }
  exists (s_sub init q). split; [exact Hp|]. split; [|exact Vr].
  rewrite inverse_steinhart_hart_passes, Hp. reflexivity.
Qed.

Lemma exact_root_is_returned_witness :
  exists r',
    inverse_passes demo_temperature demo_coefficients demo_terms
      default_guess true default_floor 1000 default_tolerance
      = Ok [(s_sub (NpFloat (Fin 26.85)) demo_temperature, r')] /\
    inverse_steinhart_hart demo_temperature demo_coefficients demo_terms
      default_guess true default_floor 1000 default_tolerance = Ok r' /\
    val r' = Fin 1.
Proof.
  apply (exact_root_is_returned demo_temperature demo_coefficients
           demo_terms default_guess true default_floor 1000
           default_tolerance 1 26.85 (NpFloat (Fin 26.85))
           (NpFloat (Fin (-90000)))).
  - lia.
  - reflexivity.
  - exact demo_steinhart_hart_celsius.
  - reflexivity.
  - reflexivity.
  - exact demo_derivative.
  - reflexivity.
  - cbn [val is_zero]. apply Reqb_false. lra.
  - unfold s_ltb, default_guess, default_floor, ltb. cbn [val fval].
    apply Rltb_false. lra.
  - unfold s_ltb, default_tolerance, ltb. cbn [val fval].
    apply Rltb_true. lra.
Defined.

(** ** Conversions between ADC values and resistances *)

Ltac decide_reals :=
  repeat match goal with
         | |- context [Reqb ?a ?b] => destruct (Reqb a b)
         | |- context [Rltb ?a ?b] => destruct (Rltb a b)
         end.

Lemma resistance_of_infinite_voltage (volt rp vref : num) :
  is_finite volt = false -> div (mul volt rp) (sub vref volt) = NaN.
Proof.
  destruct volt; cbn [is_finite]; intros H; try discriminate;
    destruct rp, vref;
    cbv [div mul sub add neg is_nan is_inf is_zero signbit xorb orb inf zero
         fval];
    decide_reals; reflexivity.
Qed.

(** X11.  A resolution of 0 bits is not an error for [adc_to_resistance]:
    the full-scale value is then 0, and every ADC value, whatever the
    reference voltage and the pull-up resistance, gives NaN. *)
Theorem adc_to_resistance_zero_resolution (adcs : list num)
    (vref pull : num) :
  adc_to_resistance adcs 0 vref pull = map (fun _ => NaN) adcs.
Proof.
  unfold adc_to_resistance. rewrite map_map. apply map_ext. intros a.
  apply resistance_of_infinite_voltage, div_by_zero_not_finite.
  cbn [full_scale Z.leb Z.compare of_Z is_zero]. apply Reqb_true.
  reflexivity.
Qed.

(** ** The rows of the lookup tables *)

Lemma mbind_ok_inv {A B} (m : M A) (k : A -> M B) (ev : list event) (b : B) :
  mbind m k = (ev, Ok b) ->
  exists l1 a l2, m = (l1, Ok a) /\ k a = (l2, Ok b) /\ ev = l1 ++ l2.
Proof.
  unfold mbind. destruct m as [l1 [a|e]]; [|discriminate].
  destruct (k a) as [l2 r] eqn:E. intros H. inversion H; subst.
  exists l1, a, l2. auto.
Qed.

Lemma massert_ok_inv (c : bool) (msg : string) (ev : list event) (u : unit) :
  massert c msg = (ev, Ok u) -> c = true.
Proof. destruct c; [reflexivity|discriminate]. Qed.

Lemma mapM_ok_inv {A B} (f : A -> M B) (l : list A) :
  forall ev ys,
    mapM f l = (ev, Ok ys) ->
    Forall2 (fun a y => outcome (f a) = Ok y) l ys.
Proof.
  induction l as [|a l IH]; intros ev ys H; cbn [mapM] in H.
  - inversion H. constructor.
  - apply mbind_ok_inv in H. destruct H as (l1 & y & l2 & Hf & H & _).
    apply mbind_ok_inv in H. destruct H as (l3 & ys' & l4 & Hm & H & _).
    inversion H; subst. constructor.
    + rewrite Hf. reflexivity.
    + eapply IH, Hm.
Qed.

Lemma sample_resistances_rows (temps cs : list scalar) (ts : list Z)
    (mi : Z) (tol : scalar) (ev : list event) (rs : list scalar) :
  sample_resistances_of temps cs ts mi tol = (ev, Ok rs) ->
  Forall2 (fun t r =>
             inverse_steinhart_hart t cs ts (PyFloat (Fin 1)) true
               (PyFloat (Fin 1e-6)) mi tol = Ok r)
          temps rs.
Proof.
  intros H. apply mapM_ok_inv in H.
  eapply Forall2_impl; [|exact H].
  intros t r Hr. cbv beta in Hr. unfold tell, lift, mbind, outcome in Hr.
  cbn [snd] in Hr.
  destruct (inverse_steinhart_hart t cs ts (PyFloat (Fin 1)) true
              (PyFloat (Fin 1e-6)) mi tol); exact Hr.
Qed.

Lemma resistance_lut_inv (temps cs : list scalar) (ts : list Z)
    (flag : bool) (mi : Z) (tol : scalar) (ev : list event) (table : lut) :
  steinhart_hart_to_resistance_lut temps cs ts flag mi tol = (ev, Ok table) ->
  exists rs,
    Forall2 (fun t r =>
               inverse_steinhart_hart t cs ts (PyFloat (Fin 1)) true
                 (PyFloat (Fin 1e-6)) mi tol = Ok r)
            temps rs /\
    table = combine (map val temps) (map val rs).
Proof.
  unfold steinhart_hart_to_resistance_lut. intros H.
  apply mbind_ok_inv in H. destruct H as (? & ? & ? & _ & H & _).
  apply mbind_ok_inv in H. destruct H as (? & ? & ? & _ & H & _).
  apply mbind_ok_inv in H. destruct H as (? & rs & ? & Hrs & H & _).
  inversion H; subst. exists rs. split; [|reflexivity].
  eapply sample_resistances_rows, Hrs.
Qed.

Lemma adc_lut_inv (temps : list scalar) (bits : Z) (vref pull : num)
    (cs : list scalar) (ts : list Z) (flag : bool) (mi : Z) (tol : scalar)
    (ev : list event) (table : lut) :
  steinhart_hart_to_adc_lut temps bits vref pull cs ts flag mi tol
  = (ev, Ok table) ->
  (1 <= bits)%Z /\ ltb (Fin 0) vref = true /\ ltb (Fin 0) pull = true /\
  exists rs,
    Forall2 (fun t r =>
               inverse_steinhart_hart t cs ts (PyFloat (Fin 1)) true
                 (PyFloat (Fin 1e-6)) mi tol = Ok r)
            temps rs /\
    table = combine (map val temps)
                    (resistance_to_adc (map val rs) bits vref pull).
Proof.
  unfold steinhart_hart_to_adc_lut. intros H.
  apply mbind_ok_inv in H. destruct H as (? & ? & ? & _ & H & _).
  apply mbind_ok_inv in H. destruct H as (? & ? & ? & Hb & H & _).
  apply mbind_ok_inv in H. destruct H as (? & ? & ? & Hv & H & _).
  apply mbind_ok_inv in H. destruct H as (? & ? & ? & Hp & H & _).
  apply mbind_ok_inv in H. destruct H as (? & ? & ? & _ & H & _).
  apply mbind_ok_inv in H. destruct H as (? & rs & ? & Hrs & H & _).
  apply mbind_ok_inv in H. destruct H as (? & ? & ? & _ & H & _).
  inversion H; subst.
  apply massert_ok_inv in Hb, Hv, Hp. apply Z.leb_le in Hb.
  repeat split; try assumption.
  exists rs. split; [|reflexivity].
  eapply sample_resistances_rows, Hrs.
Qed.

Lemma resistance_to_adc_cons (r : num) (rs : list num) (bits : Z)
    (vref pull : num) :
  resistance_to_adc (r :: rs) bits vref pull
  = resistance_to_adc [r] bits vref pull
    ++ resistance_to_adc rs bits vref pull.
Proof. reflexivity. Qed.

(** X12.  A table that a builder returns has one row per sample
    temperature, in the order given; the row of a temperature holds that
    temperature and the value obtained from it alone: the result of
    [inverse_steinhart_hart] started from 1.0 with the floor 1e-6, in the
    ADC table converted by [resistance_to_adc]. *)
Theorem lut_rows_follow_sample_temperatures :
  (forall temps cs ts flag mi tol ev table,
      steinhart_hart_to_resistance_lut temps cs ts flag mi tol
        = (ev, Ok table) ->
      Forall2 (fun t row =>
                 fst row = val t /\
                 exists r,
                   inverse_steinhart_hart t cs ts (PyFloat (Fin 1)) true
                     (PyFloat (Fin 1e-6)) mi tol = Ok r /\
                   snd row = val r)
              temps table) /\
  (forall temps bits vref pull cs ts flag mi tol ev table,
      steinhart_hart_to_adc_lut temps bits vref pull cs ts flag mi tol
        = (ev, Ok table) ->
      Forall2 (fun t row =>
                 fst row = val t /\
                 exists r,
                   inverse_steinhart_hart t cs ts (PyFloat (Fin 1)) true
                     (PyFloat (Fin 1e-6)) mi tol = Ok r /\
                   resistance_to_adc [val r] bits vref pull = [snd row])
              temps table).
Proof.
  split.
  - intros temps cs ts flag mi tol ev table H.
    apply resistance_lut_inv in H. destruct H as (rs & Hrs & ->).
    clear - Hrs. induction Hrs as [|t r temps rs Hr _ IH];
      cbn [map combine]; constructor; [|exact IH].
    split; [reflexivity|]. exists r. auto.
  - intros temps bits vref pull cs ts flag mi tol ev table H.
    apply adc_lut_inv in H. destruct H as (_ & _ & _ & rs & Hrs & ->).
    clear - Hrs. induction Hrs as [|t r temps rs Hr _ IH];
      cbn [map combine]; [constructor|].
    rewrite resistance_to_adc_cons. cbn [app combine].
    constructor; [|exact IH].
    split; [reflexivity|]. exists r. split; [exact Hr|reflexivity].
Qed.

Lemma lut_rows_follow_sample_temperatures_witness :
  Forall2 (fun t row =>
             fst row = val t /\
             exists r,
               inverse_steinhart_hart t demo_coefficients demo_terms
                 (PyFloat (Fin 1)) true (PyFloat (Fin 1e-6)) 1000
                 default_tolerance = Ok r /\
               snd row = val r)
          [demo_temperature] [(Fin 26.85, Fin 1)].
Proof.
  exact (proj1 lut_rows_follow_sample_temperatures [demo_temperature]
           demo_coefficients demo_terms false 1000%Z default_tolerance
           [EvInverse] [(Fin 26.85, Fin 1)] demo_resistance_lut).
Defined.

Lemma newton_loop_result T cs ts cel minr tol n :
  forall r r',
    newton_loop T cs ts cel minr tol n r = Ok r' ->
    r' = r \/ s_ltb r' minr = false.
Proof.
  induction n as [|k IH]; intros r r' H; cbn [newton_loop] in H.
  - inversion H. left; reflexivity.
  - right.
    destruct (newton_update T cs ts cel minr r) as [[f r1]|e] eqn:Eu;
      cbn [rbind] in H; [|discriminate].
    assert (H1 : s_ltb r1 minr = false).
    { destruct (newton_update_inv _ _ _ _ _ _ _ _ Eu)
        as (t & df & q & _ & _ & _ & _ & ->).
      apply pymax_not_below. }
    destruct (s_ltb (np_abs f) tol).
    + inversion H; subst. exact H1.
    + destruct (IH _ _ H) as [-> | H2]; assumption.
Qed.

(** A result is below the floor only if the initial guess was. *)
Lemma inverse_not_below_floor T cs ts init cel minr mi tol r :
  inverse_steinhart_hart T cs ts init cel minr mi tol = Ok r ->
  s_ltb init minr = false ->
  s_ltb r minr = false.
Proof.
  unfold inverse_steinhart_hart, assert_. intros H Hi.
  destruct (Nat.eqb (length cs) (length ts)); cbn [rbind] in H;
    [|discriminate].
  destruct (newton_loop_result _ _ _ _ _ _ _ _ _ H) as [-> | H1]; assumption.
Qed.

Lemma lut_resistance_not_below_floor t cs ts mi tol r :
  inverse_steinhart_hart t cs ts (PyFloat (Fin 1)) true (PyFloat (Fin 1e-6))
                         mi tol = Ok r ->
  ltb (val r) (Fin 1e-6) = false.
Proof.
  intros H. apply (inverse_not_below_floor _ _ _ _ _ _ _ _ _ H).
  unfold s_ltb, ltb. cbn [val fval]. apply Rltb_false. lra.
Qed.

(** X13.  No row of a resistance table holds a resistance below 1e-6,
    whatever the model, the temperatures, the iteration limit and the
    tolerance are. *)
Theorem resistance_lut_not_below_floor temps cs ts flag mi tol ev table :
  steinhart_hart_to_resistance_lut temps cs ts flag mi tol = (ev, Ok table) ->
  Forall (fun row => ltb (snd row) (Fin 1e-6) = false) table.
Proof.
  intros H. apply resistance_lut_inv in H. destruct H as (rs & Hrs & ->).
  induction Hrs as [|t r temps rs Hr _ IH]; cbn [map combine];
    constructor; [|exact IH].
  cbn [snd]. eapply lut_resistance_not_below_floor, Hr.
Qed.

Lemma resistance_lut_not_below_floor_witness :
  Forall (fun row => ltb (snd row) (Fin 1e-6) = false) [(Fin 26.85, Fin 1)].
Proof.
  exact (resistance_lut_not_below_floor [demo_temperature] demo_coefficients
           demo_terms false 1000 default_tolerance [EvInverse]
           [(Fin 26.85, Fin 1)] demo_resistance_lut).
Defined.

(** ** The end-to-end pipelines *)

(** X15.  [fit_resistance_lut] raises [AssertionError] with an empty log --
    before the design matrix, the solver or any root finding -- when there
    is no measurement, when temperatures and resistances differ in number,
    when there is no exponent, or when there are fewer measurements than
    exponents. *)
Theorem fit_resistance_lut_fails_fast
    (lstsq : matrix -> list num -> result (list num))
    (measured sample resistance : list num) (powers : list Z) (cel : bool)
    (mi : Z) (tol : scalar) :
  measured = [] \/ length measured <> length resistance \/ powers = [] \/
  (length measured < length powers)%nat ->
  exists msg,
    fit_resistance_lut lstsq measured sample resistance powers cel mi tol
      = ([], Raise (AssertionError msg)) /\
    In msg [msg_measured_temps; msg_measured_equal; msg_powers;
            msg_pairs_at_least].
Proof.
  intros H. unfold fit_resistance_lut, massert, lift, assert_.
  destruct measured as [|m measured]; cbn [length Nat.ltb Nat.leb mbind].
  - eexists. split; [reflexivity|]. simpl; auto.
  - destruct (Nat.eqb (S (length measured)) (length resistance)) eqn:E1;
      cbn [mbind app].
    + apply Nat.eqb_eq in E1.
      destruct powers as [|p powers]; cbn [length Nat.ltb Nat.leb mbind app].
      * eexists. split; [reflexivity|]. simpl; auto.
      * unfold fit_steinhart_hart, massert, lift, assert_.
        cbn [length]. rewrite E1, Nat.eqb_refl. cbn [mbind app].
        destruct (Nat.leb (S (length powers)) (length resistance)) eqn:E2;
          cbn [mbind app].
        -- exfalso. apply Nat.leb_le in E2.
           destruct H as [H|[H|[H|H]]]; try discriminate.
           ++ apply H. exact E1.
           ++ cbn [length] in H. lia.
        -- eexists. split; [reflexivity|]. simpl; auto.
    + eexists. split; [reflexivity|]. simpl; auto.
Qed.

Lemma fit_resistance_lut_fails_fast_witness :
  exists msg,
    fit_resistance_lut mean_solver [Fin 25] [Fin 30] [Fin 10000]
                       [0; 1; 3]%Z true 1000 default_tolerance
      = ([], Raise (AssertionError msg)) /\
    In msg [msg_measured_temps; msg_measured_equal; msg_powers;
            msg_pairs_at_least].
Proof.
  apply (fit_resistance_lut_fails_fast mean_solver [Fin 25] [Fin 30]
           [Fin 10000] [0; 1; 3]%Z true 1000 default_tolerance).
  right. right. right. simpl. lia.
Defined.

Lemma fit_steinhart_hart_ok_inv lstsq temperature resistance powers cel ev x :
  fit_steinhart_hart lstsq temperature resistance powers cel = (ev, Ok x) ->
  length temperature = length resistance /\
  (1 <= length powers)%nat /\
  (length powers <= length temperature)%nat /\
  lstsq (spec_design_matrix resistance powers) (spec_target temperature cel)
  = Ok x.
Proof.
  intros H. pose proof H as H0. unfold fit_steinhart_hart in H.
  apply mbind_ok_inv in H. destruct H as (? & ? & ? & H1 & H & _).
  apply mbind_ok_inv in H. destruct H as (? & ? & ? & H2 & H & _).
  apply mbind_ok_inv in H. destruct H as (? & ? & ? & H3 & _ & _).
  apply massert_ok_inv in H1, H2, H3.
  apply Nat.eqb_eq in H1. apply Nat.leb_le in H2, H3.
  repeat split; try assumption.
  rewrite fit_steinhart_hart_spec_system in H0 by assumption.
  inversion H0. reflexivity.
Qed.

Lemma table_first_column (temps : list scalar) (vals : list num) :
  length vals = length temps ->
  map fst (combine (map val temps) vals) = map val temps.
Proof.
  revert vals. induction temps as [|t temps IH]; intros [|u vals] H;
    simpl in *; try discriminate; [reflexivity|].
  rewrite IH by lia. reflexivity.
Qed.

Lemma map_val_NpFloat (l : list num) : map val (map NpFloat l) = l.
Proof.
  rewrite map_map. exact (map_id l).
Qed.

Lemma resistance_to_adc_length (rs : list num) bits vref pull :
  length (resistance_to_adc rs bits vref pull) = length rs.
Proof. unfold resistance_to_adc. rewrite !length_map. reflexivity. Qed.

(** X16.  When an end-to-end pipeline returns, the coefficients it returns
    are what the solver returned for the system of the measurements (for
    [fit_adc_lut], of the resistances converted from the ADC values), the
    table is the one that the table builder makes from these coefficients,
    and its first column is the list of sample temperatures. *)
Theorem fit_lut_returns_solver_coefficients
    (lstsq : matrix -> list num -> result (list num)) :
  (forall measured sample resistance powers cel mi tol ev table coeffs,
      fit_resistance_lut lstsq measured sample resistance powers cel mi tol
        = (ev, Ok (table, coeffs)) ->
      lstsq (spec_design_matrix resistance powers)
            (spec_target measured cel) = Ok coeffs /\
      outcome (steinhart_hart_to_resistance_lut (map NpFloat sample)
                 (map NpFloat coeffs) powers cel mi tol) = Ok table /\
      map fst table = sample) /\
  (forall measured sample adc src tgt vref pull powers cel mi tol ev table
          coeffs,
      fit_adc_lut lstsq measured sample adc src tgt vref pull powers cel mi
                  tol = (ev, Ok (table, coeffs)) ->
      lstsq (spec_design_matrix (adc_to_resistance adc src vref pull) powers)
            (spec_target measured cel) = Ok coeffs /\
      outcome (steinhart_hart_to_adc_lut (map NpFloat sample) tgt vref pull
                 (map NpFloat coeffs) powers cel mi tol) = Ok table /\
      map fst table = sample).
Proof.
  split.
  - intros measured sample resistance powers cel mi tol ev table coeffs H.
    unfold fit_resistance_lut in H.
    apply mbind_ok_inv in H. destruct H as (? & ? & ? & _ & H & _).
    apply mbind_ok_inv in H. destruct H as (? & ? & ? & _ & H & _).
    apply mbind_ok_inv in H. destruct H as (? & ? & ? & _ & H & _).
    apply mbind_ok_inv in H. destruct H as (? & coef & ? & Hfit & H & _).
    apply mbind_ok_inv in H. destruct H as (? & tb & ? & Hlut & H & _).
    inversion H; subst.
    apply fit_steinhart_hart_ok_inv in Hfit.
    destruct Hfit as (_ & _ & _ & Hx).
    split; [exact Hx|]. split; [rewrite Hlut; reflexivity|].
    apply resistance_lut_inv in Hlut. destruct Hlut as (rs & Hrs & ->).
    rewrite table_first_column, map_val_NpFloat; [reflexivity|].
    rewrite length_map. symmetry. eapply Forall2_length, Hrs.
  - intros measured sample adc src tgt vref pull powers cel mi tol ev table
           coeffs H.
    unfold fit_adc_lut in H.
    apply mbind_ok_inv in H. destruct H as (? & ? & ? & _ & H & _).
    apply mbind_ok_inv in H. destruct H as (? & ? & ? & _ & H & _).
    apply mbind_ok_inv in H. destruct H as (? & ? & ? & _ & H & _).
    apply mbind_ok_inv in H. destruct H as (? & ? & ? & _ & H & _).
    apply mbind_ok_inv in H. destruct H as (? & coef & ? & Hfit & H & _).
    apply mbind_ok_inv in H. destruct H as (? & tb & ? & Hlut & H & _).
    inversion H; subst.
    apply fit_steinhart_hart_ok_inv in Hfit.
    destruct Hfit as (_ & _ & _ & Hx).
    split; [exact Hx|]. split; [rewrite Hlut; reflexivity|].
    apply adc_lut_inv in Hlut.
    destruct Hlut as (_ & _ & _ & rs & Hrs & ->).
    rewrite table_first_column, map_val_NpFloat; [reflexivity|].
    rewrite resistance_to_adc_length, length_map. symmetry.
    eapply Forall2_length, Hrs.
Qed.

Lemma demo_fit_resistance_lut :
  fit_resistance_lut mean_solver kelvin_temperatures [Fin 350]
    kelvin_resistances constant_powers false 0 default_tolerance
  = ([EvDesignMatrix; EvLstsq; EvInverse],
     Ok ([(Fin 350, Fin 1)],
         [Fin (sum_list (reals (spec_target kelvin_temperatures false))
               / INR 2)])).
Proof.
  unfold fit_resistance_lut, massert, lift, assert_.
  cbn [length kelvin_temperatures kelvin_resistances constant_powers
       Nat.ltb Nat.leb Nat.eqb mbind app].
  fold kelvin_temperatures. fold kelvin_resistances. fold constant_powers.
  rewrite fit_steinhart_hart_spec_system;
    [|reflexivity|simpl; lia|simpl; lia].
  unfold mean_solver. cbn [mbind app].
  reflexivity.
Qed.

Lemma fit_lut_returns_solver_coefficients_witness :
  mean_solver (spec_design_matrix kelvin_resistances constant_powers)
              (spec_target kelvin_temperatures false)
    = Ok [Fin (sum_list (reals (spec_target kelvin_temperatures false))
               / INR 2)] /\
  outcome (steinhart_hart_to_resistance_lut (map NpFloat [Fin 350])
             (map NpFloat
                [Fin (sum_list (reals (spec_target kelvin_temperatures false))
                      / INR 2)])
             constant_powers false 0 default_tolerance)
    = Ok [(Fin 350, Fin 1)] /\
  map fst [(Fin 350, Fin 1)] = [Fin 350].
Proof.
  exact (proj1 (fit_lut_returns_solver_coefficients mean_solver)
           kelvin_temperatures [Fin 350] kelvin_resistances constant_powers
           false 0%Z default_tolerance _ _ _ demo_fit_resistance_lut).
Defined.

(** ** Exponents that the derivative leaves out *)

Lemma sh_dp_dr_fold_filter r l :
  forall acc,
    fold_left (sh_dp_dr_step r) l acc
    = fold_left (sh_dp_dr_step r)
                (filter (fun cp => (0 <? snd cp)%Z) l) acc.
Proof.
  induction l as [|[c p] l IH]; intros acc; [reflexivity|].
  cbn [fold_left filter snd]. destruct (0 <? p)%Z eqn:E.
  - cbn [fold_left]. apply IH.
  - rewrite <- IH. f_equal. unfold sh_dp_dr_step. rewrite E.
    destruct acc; reflexivity.
Qed.

Lemma combine_fst_snd {A B} (l : list (A * B)) :
  combine (map fst l) (map snd l) = l.
Proof.
  induction l as [|[a b] l IH]; [reflexivity|].
  cbn [map combine fst snd]. rewrite IH. reflexivity.
Qed.

(** X18.  [sh_dp_dr] only looks at the terms with a positive exponent: it
    returns what it returns for the model with all other terms removed, so
    a term with a negative exponent, which does change the temperature, has
    no part in the derivative. *)
Theorem sh_dp_dr_ignores_nonpositive_exponents (r : scalar)
    (cs : list scalar) (ts : list Z) :
  let kept := filter (fun cp => (0 <? snd cp)%Z) (combine cs ts) in
  sh_dp_dr r cs ts = sh_dp_dr r (map fst kept) (map snd kept).
Proof.
  intros kept. unfold sh_dp_dr. rewrite combine_fst_snd.
  apply sh_dp_dr_fold_filter.
Qed.

(** ** When the table builders succeed *)






(** ** The fit and the order of the measurements *)

Lemma sum_list_perm (l l' : list R) :
  Permutation l l' -> sum_list l = sum_list l'.
Proof.
  induction 1 as [|a l l' _ IH|a b l|l l' l'' _ IH1 _ IH2]; simpl.
  - reflexivity.
  - rewrite IH. reflexivity.
  - lra.
  - congruence.
Qed.

Lemma combine_map_swap {T U V W} (f : U -> V) (g : T -> W)
    (ts : list T) (us : list U) :
  combine (map f us) (map g ts)
  = map (fun tu => (f (snd tu), g (fst tu))) (combine ts us).
Proof.
  revert us. induction ts as [|t ts IH]; intros [|u us]; simpl;
    try reflexivity.
  rewrite IH. reflexivity.
Qed.

(** The equations of the system, one per measurement pair. *)
Lemma spec_system_equations (temperature resistance : list num)
    (powers : list Z) (cel : bool) :
  combine (spec_design_matrix resistance powers)
          (spec_target temperature cel)
  = map (fun tr =>
           (map (fun p => pow (log (snd tr)) p) powers,
            if cel then div (Fin 1) (add (fst tr) (Fin 273.15))
            else div (Fin 1) (fst tr)))
        (combine temperature resistance).
Proof.
  unfold spec_design_matrix, spec_target.
  apply (combine_map_swap
           (fun r => map (fun p => pow (log r) p) powers)
           (fun t => if cel then div (Fin 1) (add t (Fin 273.15))
                     else div (Fin 1) t)).
Qed.

Lemma combine_reals (A : matrix) (b : list num) :
  combine (map reals A) (reals b)
  = map (fun rb => (reals (fst rb), fval (snd rb))) (combine A b).
Proof.
  revert b. induction A as [|row A IH]; intros [|bi b]; simpl;
    try reflexivity.
  rewrite <- IH. reflexivity.
Qed.

(** X20.  Fitting the measurement pairs in another order hands the solver
    the same equations in that other order and changes nothing else: the
    rows of the design matrix and the entries of the right-hand side are
    permuted together, so the sum of squared residuals of every candidate
    coefficient vector is the same for both systems. *)
Theorem reordered_measurements_give_reordered_system
    (lstsq : matrix -> list num -> result (list num))
    (temperature resistance temperature' resistance' : list num)
    (powers : list Z) (cel : bool) :
  length temperature = length resistance ->
  length temperature' = length resistance' ->
  (1 <= length powers)%nat ->
  (length powers <= length temperature)%nat ->
  Forall machine_exponent powers ->
  Permutation (combine temperature resistance)
              (combine temperature' resistance') ->
  fit_steinhart_hart lstsq temperature' resistance' powers cel
    = ([EvDesignMatrix; EvLstsq],
       lstsq (spec_design_matrix resistance' powers)
             (spec_target temperature' cel)) /\
  Permutation
    (combine (spec_design_matrix resistance powers)
             (spec_target temperature cel))
    (combine (spec_design_matrix resistance' powers)
             (spec_target temperature' cel)) /\
  (forall x,
      residual_sq (map reals (spec_design_matrix resistance powers))
                  (reals (spec_target temperature cel)) x
      = residual_sq (map reals (spec_design_matrix resistance' powers))
                    (reals (spec_target temperature' cel)) x).
Proof.
  intros Hl Hl' Hp Hn _ HP.
  assert (Hlen : length temperature' = length temperature).
  { apply Permutation_length in HP. rewrite !length_combine in HP. lia. }
  assert (Hrows :
            Permutation
              (combine (spec_design_matrix resistance powers)
                       (spec_target temperature cel))
              (combine (spec_design_matrix resistance' powers)
                       (spec_target temperature' cel))).
  { rewrite !spec_system_equations. apply Permutation_map, HP. }
  split; [|split].
  - apply fit_steinhart_hart_spec_system; [assumption..|lia].
  - exact Hrows.
  - intros x. unfold residual_sq. apply sum_list_perm.
    rewrite !combine_reals, !map_map.
    apply Permutation_map, Hrows.
Qed.

Lemma reordered_measurements_give_reordered_system_witness :
  fit_steinhart_hart mean_solver [Fin 50; Fin 25] [Fin 3600; Fin 10000]
                     [0; 1]%Z true
    = ([EvDesignMatrix; EvLstsq],
       mean_solver (spec_design_matrix [Fin 3600; Fin 10000] [0; 1]%Z)
                   (spec_target [Fin 50; Fin 25] true)) /\
  Permutation
    (combine (spec_design_matrix [Fin 10000; Fin 3600] [0; 1]%Z)
             (spec_target [Fin 25; Fin 50] true))
    (combine (spec_design_matrix [Fin 3600; Fin 10000] [0; 1]%Z)
             (spec_target [Fin 50; Fin 25] true)) /\
  (forall x,
      residual_sq
        (map reals (spec_design_matrix [Fin 10000; Fin 3600] [0; 1]%Z))
        (reals (spec_target [Fin 25; Fin 50] true)) x
      = residual_sq
          (map reals (spec_design_matrix [Fin 3600; Fin 10000] [0; 1]%Z))
          (reals (spec_target [Fin 50; Fin 25] true)) x).
Proof.
  apply (reordered_measurements_give_reordered_system mean_solver
           [Fin 25; Fin 50] [Fin 10000; Fin 3600]
           [Fin 50; Fin 25] [Fin 3600; Fin 10000] [0; 1]%Z true).
  - reflexivity.
  - reflexivity.
  - simpl; lia.
  - simpl; lia.
  - repeat constructor; unfold machine_exponent; lia.
  - apply perm_swap.
Defined.
